(** * SentinelCCTV: the stream worker, its control routes and the SQL helper

    A shallow embedding of [src/backend/server.py] and
    [src/backend/dbProvider.py].

    - [Base64]      : [base64.b64encode] on byte strings.
    - [Server]      : the [state] dict, the Flask routes [set_stream],
                      [stop_stream] and [status], and [stream_worker] as a
                      two-step machine (loop condition, loop body) that is
                      interleaved with the routes, with requests served
                      between two steps ([run]) or between any two calls
                      of a step ([fine_run]).
    - [DbProvider]  : [psycopg2.sql] composition and the three query builders
                      of [PostgresClient]. *)

From Stdlib Require Import ZArith NArith String Ascii List Bool Lia.
From Stdlib Require Import Strings.Byte.
From stdpp Require Import base option list gmap strings.

Open Scope string_scope.
Open Scope list_scope.

(* ------------------------------------------------------------------------- *)
(** ** base64.b64encode *)
(* ------------------------------------------------------------------------- *)

Module Base64.

Definition alphabet : string :=
  "ABCDEFGHIJKLMNOPQRSTUVWXYZabcdefghijklmnopqrstuvwxyz0123456789+/".

(** The character of a 6-bit group. *)
Definition sextet (n : N) : ascii :=
  match String.get (N.to_nat (N.land n 63)) alphabet with
  | Some c => c
  | None => "="%char
  end.

Definition pad : ascii := "="%char.

(** Three input bytes give four characters; a tail of one or two bytes is
    zero-filled and padded with [=]. *)
Fixpoint b64encode (bs : list byte) : string :=
  match bs with
  | [] => ""
  | [a] =>
      let n := N.shiftl (Byte.to_N a) 16 in
      String (sextet (N.shiftr n 18)) (String (sextet (N.shiftr n 12))
        (String pad (String pad "")))
  | [a; b] =>
      let n := N.lor (N.shiftl (Byte.to_N a) 16) (N.shiftl (Byte.to_N b) 8) in
      String (sextet (N.shiftr n 18)) (String (sextet (N.shiftr n 12))
        (String (sextet (N.shiftr n 6)) (String pad "")))
  | a :: b :: c :: rest =>
      let n := N.lor (N.lor (N.shiftl (Byte.to_N a) 16) (N.shiftl (Byte.to_N b) 8))
                     (Byte.to_N c) in
      String (sextet (N.shiftr n 18)) (String (sextet (N.shiftr n 12))
        (String (sextet (N.shiftr n 6)) (String (sextet n) (b64encode rest))))
  end.

End Base64.

(* ------------------------------------------------------------------------- *)
(** ** server.py *)
(* ------------------------------------------------------------------------- *)

Module Server.

(** *** Data *)

(** Identity of a [cv2.VideoCapture] object. *)
Definition Handle := nat.

(** Identity of the array returned by [cap.read()]; its pixels are not
    inspected by the worker. *)
Definition Frame := nat.

(** One rectangle [(x, y, fw, fh)] of [detectMultiScale]. *)
Definition Box : Type := Z * Z * Z * Z.

(** A value of [state['rtsp_url']] and of the [rtsp_url] field of a request:
    [None] (JSON null), a string, or any other JSON value (a number, a
    boolean, an array, an object). Of such another value the code uses only
    whether it is truthy and whether it equals the value used last; [class]
    names its class under [==]. *)
Inductive Url :=
| UNone
| UStr (s : string)
| UOther (truth : bool) (class : nat).

#[global] Instance Url_eq_dec : EqDecision Url.
Proof. solve_decision. Defined.

(** Python truthiness of such a value. *)
Definition truthy (u : Url) : bool :=
  match u with
  | UNone => false
  | UStr s => negb (String.eqb s "")
  | UOther truth _ => truth
  end.

(** A value stored in the [state] dict. *)
Inductive StVal :=
| VUrl (u : Url)
| VFlag (b : bool).

(** What the worker and the routes do to the outside. [guarded] tells whether
    a [state] access happens inside a [with state_lock] block. *)
Inductive Event :=
| EvAcquire
| EvUnlock
| EvGet (key : string) (v : StVal) (guarded : bool)
| EvSet (key : string) (v : StVal) (guarded : bool)
| EvCapture (url : Url) (h : Handle)
| EvRelease (h : Handle)
| EvIsOpened (h : Handle)
| EvRead (h : Handle)
| EvDetect (faces : list Box)
| EvImencode (jpeg : list byte)
| EvEmit (image : string) (faces : nat)
| EvSleep (ms : Z).

(** Where the worker thread stands: about to evaluate the [while] condition,
    about to run the loop body, returned, or killed by an exception. *)
Inductive Pc := AtWhile | InBody | Finished | Crashed.

(** The [state] dict (its [placeholder_path] entry is never read), the locals
    [last_url] and [cap] of [stream_worker], and the allocator of capture
    objects. *)
Record Sys := mkSys {
  rtsp_url : Url;
  running : bool;
  last_url : Url;
  cap : option Handle;
  pc : Pc;
  next_handle : Handle
}.

Definition set_rtsp_url (u : Url) (s : Sys) : Sys :=
  mkSys u (running s) (last_url s) (cap s) (pc s) (next_handle s).
Definition set_last_url (u : Url) (s : Sys) : Sys :=
  mkSys (rtsp_url s) (running s) u (cap s) (pc s) (next_handle s).
Definition set_cap (c : option Handle) (s : Sys) : Sys :=
  mkSys (rtsp_url s) (running s) (last_url s) c (pc s) (next_handle s).
Definition set_pc (p : Pc) (s : Sys) : Sys :=
  mkSys (rtsp_url s) (running s) (last_url s) (cap s) p (next_handle s).
Definition bump_handle (s : Sys) : Sys :=
  mkSys (rtsp_url s) (running s) (last_url s) (cap s) (pc s) (S (next_handle s)).

(** The module-level [state] and a worker that has not started its loop. *)
Definition init : Sys :=
  mkSys (UStr "rtsp:/192.168.1.20:554/mjpeg/1") true UNone None AtWhile 0.

(** *** Outcomes of the calls into cv2 and Socket.IO *)

Inductive Outcome (A : Type) :=
| Returns (a : A)
| Raises (e : string).
Arguments Returns {A} a.
Arguments Raises {A} e.

(** The answers of the outside world to the calls of one pass through the
    loop, one field per call site of [stream_worker]. *)
Record Oracle := mkOracle {
  release_changed : Outcome unit;          (* cap.release(), url changed *)
  capture_changed : Outcome unit;          (* cv2.VideoCapture(url), url changed *)
  is_opened : Outcome bool;                (* cap.isOpened() *)
  release_retry : Outcome unit;            (* cap.release(), not opened *)
  capture_retry : Outcome unit;            (* cv2.VideoCapture(url), not opened *)
  read : Outcome (bool * option Frame);    (* cap.read() *)
  detect : Outcome (list Box);             (* resize, cvtColor, detectMultiScale, rectangle *)
  imencode : Outcome (bool * list byte);   (* cv2.imencode('.jpg', frame) *)
  emit : Outcome unit;                     (* socketio.emit('frame', ...) *)
  release_exit : Outcome unit              (* cap.release(), after the loop *)
}.

(** *** A state, exception and event-log monad *)

Inductive Res (A : Type) :=
| Ret (a : A)
| Exc (e : string).
Arguments Ret {A} a.
Arguments Exc {A} e.

(** The boolean argument is [true] inside a [with state_lock] block. *)
Definition M (A : Type) : Type := bool -> Sys -> Res A * Sys * list Event.

Definition ret {A} (a : A) : M A := fun _ s => (Ret a, s, []).

Definition bind {A B} (m : M A) (f : A -> M B) : M B :=
  fun g s =>
    match m g s with
    | (Ret a, s1, e1) =>
        match f a g s1 with
        | (r, s2, e2) => (r, s2, e1 ++ e2)
        end
    | (Exc x, s1, e1) => (Exc x, s1, e1)
    end.

Notation "x <- m ;; k" := (bind m (fun x => k))
  (at level 100, m at next level, right associativity).
Notation "m ;;; k" := (bind m (fun _ => k))
  (at level 100, right associativity).

Definition log (e : Event) : M unit := fun _ s => (Ret tt, s, [e]).
Definition raise {A} (e : string) : M A := fun _ s => (Exc e, s, []).
Definition gets {A} (f : Sys -> A) : M A := fun _ s => (Ret (f s), s, []).
Definition modify (f : Sys -> Sys) : M unit := fun _ s => (Ret tt, f s, []).

(** [try: m except Exception: pass] *)
Definition try_pass (m : M unit) : M unit :=
  fun g s =>
    match m g s with
    | (Exc _, s1, e1) => (Ret tt, s1, e1)
    | r => r
    end.

(** [with state_lock: m] *)
Definition with_lock {A} (m : M A) : M A :=
  fun _ s =>
    match m true s with
    | (r, s1, e1) => (r, s1, EvAcquire :: e1 ++ [EvUnlock])
    end.

(** An external call whose result the world decides. *)
Definition call {A} (o : Outcome A) : M A :=
  match o with
  | Returns a => ret a
  | Raises e => raise e
  end.

(** [state['rtsp_url']], [state['running']], [state['rtsp_url'] = u] *)
Definition get_rtsp_url : M Url :=
  fun g s => (Ret (rtsp_url s), s, [EvGet "rtsp_url" (VUrl (rtsp_url s)) g]).
Definition get_running : M bool :=
  fun g s => (Ret (running s), s, [EvGet "running" (VFlag (running s)) g]).
Definition put_rtsp_url (u : Url) : M unit :=
  fun g s => (Ret tt, set_rtsp_url u s, [EvSet "rtsp_url" (VUrl u) g]).

(** [time.sleep], in milliseconds *)
Definition sleep (ms : Z) : M unit := log (EvSleep ms).

(** [cv2.VideoCapture(url)]: a new object when the constructor returns. *)
Definition VideoCapture (url : Url) (o : Outcome unit) : M Handle :=
  call o ;;;
  h <- gets next_handle ;;
  modify bump_handle ;;;
  log (EvCapture url h) ;;;
  ret h.

(** [cap.release()] is recorded when it is called, whatever it does. *)
Definition cap_release (h : Handle) (o : Outcome unit) : M unit :=
  log (EvRelease h) ;;; call o.

Definition cap_isOpened (h : Handle) (o : Outcome bool) : M bool :=
  log (EvIsOpened h) ;;; call o.

Definition cap_read (h : Handle) (o : Outcome (bool * option Frame))
  : M (bool * option Frame) :=
  log (EvRead h) ;;; call o.

(** The detection stage and [cv2.imencode] are recorded when they return,
    with what they return. *)
Definition cv_detect (o : Outcome (list Box)) : M (list Box) :=
  faces <- call o ;;
  log (EvDetect faces) ;;;
  ret faces.

Definition cv_imencode (o : Outcome (bool * list byte)) : M (bool * list byte) :=
  enc <- call o ;;
  log (EvImencode (snd enc)) ;;;
  ret enc.

(** [socketio.emit('frame', {'image': b64, 'faces': n})] *)
Definition socketio_emit (b64 : string) (n : nat) (o : Outcome unit) : M unit :=
  log (EvEmit b64 n) ;;; call o.

(** *** stream_worker *)

(** The [while state['running']] test, and the cleanup after the loop when it
    is false. The flag is read outside any [with state_lock] block. *)
Definition stream_worker_while (o : Oracle) : M unit :=
  r <- get_running ;;
  if r then modify (set_pc InBody)
  else
    try_pass (c <- gets cap ;;
              match c with
              | Some h => cap_release h (release_exit o)
              | None => ret tt
              end) ;;;
    modify (set_pc Finished).

(** The tail of the body once a frame was read: detection, JPEG, base64,
    emit, throttle. The flag returned by [imencode] is bound to [_]. *)
Definition process_frame (o : Oracle) : M unit :=
  faces <- cv_detect (detect o) ;;
  enc <- cv_imencode (imencode o) ;;
  let b64 := Base64.b64encode (snd enc) in
  socketio_emit b64 (length faces) (emit o) ;;;
  sleep 30.

(** One pass through the loop body; [continue] is the end of the pass. *)
Definition stream_worker_body (o : Oracle) : M unit :=
  url <- with_lock get_rtsp_url ;;
  if negb (truthy url) then
    sleep 500
  else
    last <- gets last_url ;;
    (if decide (url = last) then ret tt
     else
       c <- gets cap ;;
       match c with
       | Some h =>
           try_pass (cap_release h (release_changed o)) ;;;
           modify (set_cap None)
       | None => ret tt
       end ;;;
       h <- VideoCapture url (capture_changed o) ;;
       modify (set_cap (Some h)) ;;;
       modify (set_last_url url) ;;;
       sleep 500) ;;;
    c <- gets cap ;;
    closed <- match c with
              | None => ret true
              | Some h =>
                  opened <- cap_isOpened h (is_opened o) ;;
                  ret (negb opened)
              end ;;
    if (closed : bool) then
      try_pass (match c with
                | Some h => cap_release h (release_retry o)
                | None => ret tt
                end) ;;;
      h <- VideoCapture url (capture_retry o) ;;
      modify (set_cap (Some h)) ;;;
      sleep 1000
    else
      match c with
      | None => raise "AttributeError"
      | Some h =>
          rf <- cap_read h (read o) ;;
          match rf with
          | (true, Some frame) => process_frame o
          | _ => sleep 500
          end
      end.

(** *** The routes *)

Inductive JVal :=
| JNull
| JBool (b : bool)
| JStr (s : string)
| JOther (truth : bool) (class : nat).

Definition json_of_url (u : Url) : JVal :=
  match u with
  | UNone => JNull
  | UStr s => JStr s
  | UOther truth class => JOther truth class
  end.

(** [jsonify(body), code] *)
Record Response := mkResponse {
  code : Z;
  body : list (string * JVal)
}.

(** What [request.get_json(force=True)] returns: a JSON object, or another
    JSON value (null, an array, a string, a number, a boolean), which has no
    [get]. A body that is no JSON at all does not get this far: [get_json]
    raises and the route's own code is not run. *)
Inductive Data :=
| DObject (fields : gmap string Url)
| DOther.

(** [data.get('rtsp_url')]: [None] when the key is absent; on a value that
    is no object the call raises. *)
Definition data_get_rtsp_url (data : Data) : M Url :=
  match data with
  | DObject fields => ret (default UNone (fields !! "rtsp_url"))
  | DOther => raise "AttributeError"
  end.

(** [set_stream]; an exception that leaves the route is answered by Flask
    with status 500. *)
Definition set_stream (data : Data) : M Response :=
  url <- data_get_rtsp_url data ;;
  if negb (truthy url) then
    ret (mkResponse 400 [("ok", JBool false); ("error", JStr "rtsp_url required")])
  else
    with_lock (put_rtsp_url url) ;;;
    ret (mkResponse 200 [("ok", JBool true); ("rtsp_url", json_of_url url)]).

Definition stop_stream : M Response :=
  with_lock (put_rtsp_url UNone) ;;;
  ret (mkResponse 200 [("ok", JBool true)]).

Definition status : M Response :=
  url <- with_lock get_rtsp_url ;;
  ret (mkResponse 200 [("rtsp_url", json_of_url url)]).

(** The status line of the answer: Flask answers an exception that leaves a
    view function with status 500. *)
Definition http_status (r : Res Response) : Z :=
  match r with
  | Ret resp => code resp
  | Exc _ => 500%Z
  end.

Inductive ControlOp :=
| SetStream (data : Data)
| StopStream
| Status.

Definition route (op : ControlOp) : M Response :=
  match op with
  | SetStream data => set_stream data
  | StopStream => stop_stream
  | Status => status
  end.

(** *** Interleaved executions *)

(** One atomic step of the system: a request served by a route, or the next
    step of the worker thread with the world's answers for it. The body
    touches [state] in its first statement only, so a request served while
    the rest of the body runs leaves the state that one served right after
    it leaves; the order in which the events of such a request and of the
    rest of the step happen is that of [fine_run] below. *)
Inductive Action :=
| Ctl (op : ControlOp)
| Tick (o : Oracle).

(** An uncaught exception ends the worker thread. *)
Definition exec (m : M unit) (s : Sys) : Sys * list Event :=
  match m false s with
  | (Ret _, s1, e1) => (s1, e1)
  | (Exc _, s1, e1) => (set_pc Crashed s1, e1)
  end.

Definition tick (o : Oracle) (s : Sys) : Sys * list Event :=
  match pc s with
  | AtWhile => exec (stream_worker_while o) s
  | InBody => exec (stream_worker_body o ;;; modify (set_pc AtWhile)) s
  | Finished | Crashed => (s, [])
  end.

(** A route runs in its own thread; an exception there does not reach the
    worker. *)
Definition control (op : ControlOp) (s : Sys) : Res Response * Sys * list Event :=
  route op false s.

Definition act (a : Action) (s : Sys) : Sys * list Event :=
  match a with
  | Ctl op => match control op s with (_, s1, e1) => (s1, e1) end
  | Tick o => tick o s
  end.

(** Runs a schedule and collects the events in the order they happen. *)
Fixpoint run (sched : list Action) (s : Sys) : Sys * list Event :=
  match sched with
  | [] => (s, [])
  | a :: rest =>
      match act a s with
      | (s1, e1) =>
          match run rest s1 with
          | (s2, e2) => (s2, e1 ++ e2)
          end
      end
  end.

(** One full iteration: the [while] test, then the body. *)
Definition iteration (o : Oracle) : list Action := [Tick o; Tick o].

(** *** Observations on event logs *)

Definition emits (tr : list Event) : list (string * nat) :=
  omap (fun e => match e with EvEmit img n => Some (img, n) | _ => None end) tr.

Definition releases (tr : list Event) : list Handle :=
  omap (fun e => match e with EvRelease h => Some h | _ => None end) tr.

Definition captures (tr : list Event) : list Handle :=
  omap (fun e => match e with EvCapture _ h => Some h | _ => None end) tr.

Definition reads (tr : list Event) : list Handle :=
  omap (fun e => match e with EvRead h => Some h | _ => None end) tr.

Definition active (p : Pc) : bool :=
  match p with
  | AtWhile | InBody => true
  | Finished | Crashed => false
  end.


(** The capture the log says is held is the worker's [cap] while the worker
    runs, and none once the worker has returned. *)
Definition holds (s : Sys) (held : option Handle) : Prop :=
  (active (pc s) = true -> held = cap s) /\ (pc s = Finished -> held = None).

(** Every access to [state] is inside a [with state_lock] block. *)
Definition all_guarded (tr : list Event) : bool :=
  forallb (fun e => match e with
                    | EvGet _ _ g | EvSet _ _ g => g
                    | _ => true
                    end) tr.

(** What the code does: [rtsp_url] is read and written under the lock;
    [running] is only read, and outside the lock. *)
Definition access_ok (e : Event) : bool :=
  match e with
  | EvGet k _ g =>
      if String.eqb k "rtsp_url" then g else String.eqb k "running" && negb g
  | EvSet k _ g => String.eqb k "rtsp_url" && g
  | _ => true
  end.

(** The lock is taken and dropped in turn, the [guarded] mark of an access
    agrees with it, and no call into cv2, Socket.IO or [time.sleep] happens
    while it is held. *)
Fixpoint lock_discipline (held : bool) (tr : list Event) : bool :=
  match tr with
  | [] => negb held
  | EvAcquire :: rest => negb held && lock_discipline true rest
  | EvUnlock :: rest => held && lock_discipline false rest
  | EvGet _ _ g :: rest => Bool.eqb g held && lock_discipline held rest
  | EvSet _ _ g :: rest => Bool.eqb g held && lock_discipline held rest
  | _ :: rest => negb held && lock_discipline held rest
  end.

(** Every read of [rtsp_url] returns the value of the latest write before
    it, or [cur] when there is none. *)
Fixpoint reads_latest (cur : Url) (tr : list Event) : bool :=
  match tr with
  | [] => true
  | EvSet k (VUrl u) _ :: rest =>
      if String.eqb k "rtsp_url" then reads_latest u rest else reads_latest cur rest
  | EvGet k (VUrl u) _ :: rest =>
      if String.eqb k "rtsp_url" then bool_decide (u = cur) && reads_latest cur rest
      else reads_latest cur rest
  | _ :: rest => reads_latest cur rest
  end.

(** The value of [rtsp_url] after a log, [cur] when nothing was written. *)
Fixpoint last_write (cur : Url) (tr : list Event) : Url :=
  match tr with
  | [] => cur
  | EvSet k (VUrl u) _ :: rest =>
      if String.eqb k "rtsp_url" then last_write u rest else last_write cur rest
  | _ :: rest => last_write cur rest
  end.

(** Whether [set_stream] stores the address of a request. *)
Definition accepted (data : Data) : bool :=
  match data with
  | DObject fields => truthy (default UNone (fields !! "rtsp_url"))
  | DOther => false
  end.

(** A request that [set_stream] does not accept, or any other request. *)
Definition keeps_empty (a : Action) : bool :=
  match a with
  | Ctl (SetStream data) => negb (accepted data)
  | _ => true
  end.

(** The world's answers in a pass that delivers one frame with the given
    detections and JPEG bytes. *)
Definition delivers (o : Oracle) (item : list Box * list byte) : Prop :=
  is_opened o = Returns true /\
  (exists f, read o = Returns (true, Some f)) /\
  detect o = Returns (fst item) /\
  (exists ok, imencode o = Returns (ok, snd item)) /\
  emit o = Returns tt.

(** No call outside a [try] block raises. *)
Definition calm (o : Oracle) : Prop :=
  (exists a, capture_changed o = Returns a) /\
  (exists a, is_opened o = Returns a) /\
  (exists a, capture_retry o = Returns a) /\
  (exists a, read o = Returns a) /\
  (exists a, detect o = Returns a) /\
  (exists a, imencode o = Returns a) /\
  (exists a, emit o = Returns a).

(** The message of one processed frame. *)
Definition message (item : list Box * list byte) : string * nat :=
  (Base64.b64encode (snd item), length (fst item)).

(** The messages a log calls for: one for each JPEG that came out of
    [cv2.imencode], with the number of detections made last before it. *)
Fixpoint expected (faces : list Box) (tr : list Event) : list (string * nat) :=
  match tr with
  | [] => []
  | EvDetect found :: rest => expected found rest
  | EvImencode jpeg :: rest => message (faces, jpeg) :: expected faces rest
  | _ :: rest => expected faces rest
  end.

(** Concrete worlds and states used in examples. *)
Definition answers (opened : bool) (rd : Outcome (bool * option Frame))
    (faces : list Box) (enc : Outcome (bool * list byte)) : Oracle :=
  mkOracle (Returns tt) (Returns tt) (Returns opened) (Returns tt) (Returns tt)
           rd (Returns faces) enc (Returns tt) (Returns tt).

Definition camA : Data := DObject {["rtsp_url" := UStr "camA"]}.

(** Three iterations with a request for the status in between; the camera
    would deliver a frame in the first and the last. *)
Definition three_passes : list Action :=
  iteration (answers true (Returns (true, Some 7)) [] (Returns (true, []))) ++
  iteration (answers false (Returns (true, Some 8)) [] (Returns (true, []))) ++
  [Ctl Status] ++
  iteration (answers true (Returns (true, Some 9)) [] (Returns (true, []))).

(** The worker holds capture 0, opened on camA, and is about to test the
    loop condition. *)
Definition camA_open : Sys :=
  mkSys (UStr "camA") true (UStr "camA") (Some 0) AtWhile 1.

(** *** Further observations *)

(** A step that does not write [state['rtsp_url']]: a step of the worker, a
    status request, or a [set_stream] request that is turned down. *)
Definition no_write (a : Action) : bool :=
  match a with
  | Ctl (SetStream data) => negb (accepted data)
  | Ctl StopStream => false
  | Ctl Status => true
  | Tick _ => true
  end.

(** The addresses given to [cv2.VideoCapture], in order. *)
Definition capture_urls (tr : list Event) : list Url :=
  omap (fun e => match e with EvCapture u _ => Some u | _ => None end) tr.

(** [cap.isOpened()] and [cap.read()] are called only on the capture that
    was constructed last and on which release was not called since. *)
Fixpoint uses_held (held : option Handle) (tr : list Event) : bool :=
  match tr with
  | [] => true
  | EvCapture _ h :: rest => uses_held (Some h) rest
  | EvRelease _ :: rest => uses_held None rest
  | EvIsOpened h :: rest => bool_decide (held = Some h) && uses_held held rest
  | EvRead h :: rest => bool_decide (held = Some h) && uses_held held rest
  | _ :: rest => uses_held held rest
  end.

(** The capture held after a log. *)
Fixpoint held_after (held : option Handle) (tr : list Event) : option Handle :=
  match tr with
  | [] => held
  | EvCapture _ h :: rest => held_after (Some h) rest
  | EvRelease _ :: rest => held_after None rest
  | _ :: rest => held_after held rest
  end.

(** The time spent in [time.sleep], in milliseconds. *)
Definition slept (tr : list Event) : Z :=
  fold_right Z.add 0%Z
    (omap (fun e => match e with EvSleep ms => Some ms | _ => None end) tr).

(** The worker holds capture [h], opened for the address [u] that [state]
    still names, and is at the loop condition with the flag set. *)
Definition streaming (s : Sys) (u : string) (h : Handle) : Prop :=
  pc s = AtWhile /\ running s = true /\ rtsp_url s = UStr u /\
  truthy (UStr u) = true /\ last_url s = UStr u /\ cap s = Some h.

(** A pass in which the capture reports opened and the read gives no frame. *)
Definition misses (o : Oracle) : Prop :=
  is_opened o = Returns true /\
  exists rf, read o = Returns rf /\ forall f, rf <> (true, Some f).

(** A pass in which the capture reports not opened and a new one is
    constructed. *)
Definition refuses (o : Oracle) : Prop :=
  is_opened o = Returns false /\ capture_retry o = Returns tt.

(** The number of worker steps of a schedule. *)
Fixpoint ticks (sched : list Action) : nat :=
  match sched with
  | [] => 0
  | Tick _ :: rest => S (ticks rest)
  | Ctl _ :: rest => ticks rest
  end.

(** *** Requests served while a step is under way *)

(** [tick] runs a step of the worker as a whole. A request can also be
    served while a step is under way, between any two of its calls: the
    worker holds the lock for the poll of the address only. A step reads
    [state] in its first statement only and no route touches a local of the
    worker, so what the rest of the step does is fixed once it has started.
    [pending] keeps the events of the step under way that have not happened
    yet, in order; [sys] holds [state] as it is now and the locals as the
    step under way leaves them. *)
Record Fine := mkFine {
  sys : Sys;
  pending : list Event
}.

(** A request served by a route, or the next move of the worker: when no
    step is under way the next step starts, with the world's answers for
    it; otherwise the step under way makes its next call. *)
Inductive FineAction :=
| Serve (op : ControlOp)
| Work (o : Oracle).

(** The events of a block under the lock, up to the unlock. *)
Fixpoint locked (tr : list Event) : list Event * list Event :=
  match tr with
  | [] => ([], [])
  | EvUnlock :: rest => ([EvUnlock], rest)
  | e :: rest => match locked rest with (now, later) => (e :: now, later) end
  end.

(** What a step does before another thread can run: the block under the
    lock that it starts with, or its first event. *)
Definition first_move (tr : list Event) : list Event * list Event :=
  match tr with
  | [] => ([], [])
  | EvAcquire :: rest => match locked rest with (now, later) => (EvAcquire :: now, later) end
  | e :: rest => ([e], rest)
  end.

Definition fine_act (a : FineAction) (f : Fine) : Fine * list Event :=
  match a with
  | Serve op =>
      match act (Ctl op) (sys f) with
      | (s1, e1) => (mkFine s1 (pending f), e1)
      end
  | Work o =>
      match pending f with
      | e :: rest => (mkFine (sys f) rest, [e])
      | [] =>
          match tick o (sys f) with
          | (s1, tr) => (mkFine s1 (first_move tr).2, (first_move tr).1)
          end
      end
  end.

Fixpoint fine_run (sched : list FineAction) (f : Fine) : Fine * list Event :=
  match sched with
  | [] => (f, [])
  | a :: rest =>
      match fine_act a f with
      | (f1, e1) =>
          match fine_run rest f1 with
          | (f2, e2) => (f2, e1 ++ e2)
          end
      end
  end.

(** The process between two steps of the worker. *)
Definition at_rest (s : Sys) : Fine := mkFine s [].

(** A step of the worker run to its end with no request in between. *)
Definition whole_step (o : Oracle) (s : Sys) : list FineAction :=
  repeat (Work o) (S (length (first_move (tick o s).2).2)).

(** The schedule of [fine_run] that serves every request between two steps,
    as [run] does. *)
Fixpoint between_steps (sched : list Action) (s : Sys) : list FineAction :=
  match sched with
  | [] => []
  | Ctl op :: rest => Serve op :: between_steps rest (act (Ctl op) s).1
  | Tick o :: rest => whole_step o s ++ between_steps rest (tick o s).1
  end.

Definition fine_keeps_empty (a : FineAction) : bool :=
  match a with
  | Serve op => keeps_empty (Ctl op)
  | Work _ => true
  end.

Definition fine_no_write (a : FineAction) : bool :=
  match a with
  | Serve op => no_write (Ctl op)
  | Work _ => true
  end.

(** The calls into cv2 and Socket.IO of a log. *)
Definition is_call (e : Event) : bool :=
  match e with
  | EvCapture _ _ | EvRelease _ | EvIsOpened _ | EvRead _
  | EvDetect _ | EvImencode _ | EvEmit _ _ => true
  | _ => false
  end.

Fixpoint calls (tr : list Event) : list Event :=
  match tr with
  | [] => []
  | e :: rest => if is_call e then e :: calls rest else calls rest
  end.

(** The accesses to [state] and the lock operations. *)
Definition is_access (e : Event) : bool :=
  match e with
  | EvAcquire | EvUnlock | EvGet _ _ _ | EvSet _ _ _ => true
  | _ => false
  end.

(** The worker polls camA, and [stop_stream] is served before the pass has
    read its frame. *)
Definition stop_inside_pass : list FineAction :=
  let o := answers true (Returns (true, Some 7)) [] (Returns (true, [xff]%byte)) in
  [Work o; Work o; Serve StopStream] ++ repeat (Work o) 12.

(** The worker polls camA, and camB is set before the pass has constructed
    its capture. *)
Definition set_inside_pass : list FineAction :=
  let o := answers true (Returns (true, Some 7)) [] (Returns (true, [xff]%byte)) in
  [Work o; Work o; Serve (SetStream (DObject {["rtsp_url" := UStr "camB"]}))] ++
  repeat (Work o) 12.

End Server.

(* ------------------------------------------------------------------------- *)
(** ** dbProvider.py *)
(* ------------------------------------------------------------------------- *)

Module DbProvider.

(** *** psycopg2.sql *)

(** A value handed to the driver as a query parameter. *)
Inductive PyVal :=
| VNone
| VBool (b : bool)
| VInt (z : Z)
| VStr (s : string).

(** [sql.SQL] is raw query text, [sql.Identifier] a name the driver quotes,
    [sql.Placeholder()] an unnamed [%s], [sql.Composed] a sequence. *)
#[warnings="-register-all"] Inductive Composable :=
| SQL (s : string)
| Identifier (s : string)
| Placeholder
| Composed (parts : list Composable).

(** [a + b] *)
Definition add (a b : Composable) : Composable :=
  match a, b with
  | Composed x, Composed y => Composed (x ++ y)
  | Composed x, _ => Composed (x ++ [b])
  | _, Composed y => Composed (a :: y)
  | _, _ => Composed [a; b]
  end.

Fixpoint join_parts (joiner : Composable) (seq : list Composable) : list Composable :=
  match seq with
  | [] => []
  | x :: rest =>
      match rest with
      | [] => [x]
      | _ :: _ => x :: joiner :: join_parts joiner rest
      end
  end.

(** [sql.SQL(joiner).join(seq)] *)
Definition join (joiner : string) (seq : list Composable) : Composable :=
  Composed (join_parts (SQL joiner) seq).

(** [sql.Placeholder() * n] *)
Definition placeholders (n : nat) : list Composable := repeat Placeholder n.

(** The pieces of a format template: literal text followed by a field name,
    or trailing text with no field. Templates of this file use [{}] and
    [{name}] only. *)
Fixpoint parse (t : string) (pre : string) (fld : option string)
  : list (string * option string) :=
  match t with
  | EmptyString =>
      match fld with
      | None => if String.eqb pre "" then [] else [(pre, None)]
      | Some _ => []
      end
  | String c rest =>
      match fld with
      | None =>
          if Ascii.eqb c "{" then parse rest pre (Some "")
          else parse rest (pre +:+ String c "") None
      | Some n =>
          if Ascii.eqb c "}" then (pre, Some n) :: parse rest "" None
          else parse rest pre (Some (n +:+ String c ""))
      end
  end.

Fixpoint lookup_kw (name : string) (kwargs : list (string * Composable))
  : option Composable :=
  match kwargs with
  | [] => None
  | (k, v) :: rest => if String.eqb k name then Some v else lookup_kw name rest
  end.

(** Fills the fields in order; an empty name takes the next positional
    argument. Every template of this file is given the arguments it names. *)
Fixpoint fill (segs : list (string * option string)) (args : list Composable)
    (kwargs : list (string * Composable)) : list Composable :=
  match segs with
  | [] => []
  | (pre, fld) :: rest =>
      (if String.eqb pre "" then [] else [SQL pre]) ++
      match fld with
      | None => fill rest args kwargs
      | Some name =>
          if String.eqb name "" then
            match args with
            | a :: args' => a :: fill rest args' kwargs
            | [] => fill rest [] kwargs
            end
          else
            match lookup_kw name kwargs with
            | Some v => v :: fill rest args kwargs
            | None => fill rest args kwargs
            end
      end
  end.

(** [sql.SQL(template).format], with its positional and keyword arguments *)
Definition format (template : string) (args : list Composable)
    (kwargs : list (string * Composable)) : Composable :=
  Composed (fill (parse template "" None) args kwargs).

(** The double quote character. *)
Definition dquote : ascii := Ascii.ascii_of_nat 34.

(** Identifier quoting of the driver: wrapped in double quotes, embedded
    double quotes doubled. *)
Fixpoint escape_ident (s : string) : string :=
  match s with
  | EmptyString => EmptyString
  | String c rest =>
      if Ascii.eqb c dquote then String dquote (String dquote (escape_ident rest))
      else String c (escape_ident rest)
  end.

Definition quote_ident (s : string) : string :=
  String dquote (escape_ident s +:+ String dquote EmptyString).

(** [query.as_string(conn)] *)
Fixpoint as_string (q : Composable) : string :=
  match q with
  | SQL s => s
  | Identifier s => quote_ident s
  | Placeholder => "%s"
  | Composed parts =>
      (fix go (l : list Composable) : string :=
         match l with
         | [] => EmptyString
         | x :: r => as_string x +:+ go r
         end) parts
  end.

(** The leaves of a composed query, left to right. *)
Inductive Atom :=
| ASql (s : string)
| AIdent (s : string)
| APlaceholder.

Fixpoint atoms (q : Composable) : list Atom :=
  match q with
  | SQL s => [ASql s]
  | Identifier s => [AIdent s]
  | Placeholder => [APlaceholder]
  | Composed parts =>
      (fix go (l : list Composable) : list Atom :=
         match l with
         | [] => []
         | x :: r => atoms x ++ go r
         end) parts
  end.

(** The raw SQL texts and the identifiers of a composed query. *)
Definition sql_texts (q : Composable) : list string :=
  omap (fun a => match a with ASql s => Some s | _ => None end) (atoms q).

Definition identifiers (q : Composable) : list string :=
  omap (fun a => match a with AIdent s => Some s | _ => None end) (atoms q).

(** *** PostgresClient *)

(** The one call a query builder makes: [self._execute(query, params, fetch)]. *)
Record Call := mkCall {
  query : Composable;
  params : option (list PyVal);
  fetch : option string
}.

Inductive Result :=
| Execute (c : Call)
| ValueError (msg : string).

(** Truthiness of an optional sequence, mapping or string. *)
Definition some_list {A} (o : option (list A)) : list A := default [] o.
Definition truthy_seq {A} (o : option (list A)) : bool :=
  match some_list o with
  | [] => false
  | _ :: _ => true
  end.
Definition truthy_str (o : option string) : bool :=
  match o with
  | Some s => negb (String.eqb s "")
  | None => false
  end.

(** [params or None] *)
Definition or_none (ps : list PyVal) : option (list PyVal) :=
  match ps with
  | [] => None
  | _ :: _ => Some ps
  end.

(** The loop [for k, v in where.items()] of both builders: one
    [{} = %s] fragment per key. *)
Definition where_parts (w : list (string * PyVal)) : list Composable :=
  map (fun kv => format "{} = %s" [Identifier (fst kv)] []) w.

Definition select_from_table (table : string) (columns : option (list string))
    (where_ : option (list (string * PyVal))) (where_sql : option string)
    (where_params : option (list PyVal)) (order_by : option (list string))
    (limit : option Z) : Result :=
  let cols_sql :=
    if truthy_seq columns then join ", " (map Identifier (some_list columns))
    else SQL "*" in
  let table_sql := Identifier table in
  let query0 :=
    format "SELECT {cols} FROM {table}" [] [("cols", cols_sql); ("table", table_sql)] in
  let params0 : list PyVal := [] in
  let '(query1, params1) :=
    if truthy_seq where_ then
      let where_sql_obj :=
        add (SQL " WHERE ") (join " AND " (where_parts (some_list where_))) in
      (add query0 where_sql_obj, params0 ++ map snd (some_list where_))
    else if truthy_str where_sql then
      (add (add query0 (SQL " WHERE ")) (SQL (default "" where_sql)),
       if truthy_seq where_params then params0 ++ some_list where_params else params0)
    else (query0, params0) in
  let query2 :=
    if truthy_seq order_by then
      add (add query1 (SQL " ORDER BY ")) (join ", " (map Identifier (some_list order_by)))
    else query1 in
  let '(query3, params3) :=
    match limit with
    | Some n => (add query2 (SQL " LIMIT %s"), params1 ++ [VInt n])
    | None => (query2, params1)
    end in
  Execute (mkCall query3 (or_none params3) (Some "all")).

Definition insert_into_table (table : string) (data : list (string * PyVal))
    (return_columns : option (list string)) : Result :=
  match data with
  | [] => ValueError "`data` cannot be empty for insert."
  | _ :: _ =>
      let table_sql := Identifier table in
      let cols := map fst data in
      let values := map snd data in
      let cols_sql := join ", " (map Identifier cols) in
      let vals := join ", " (placeholders (length cols)) in
      let base :=
        format "INSERT INTO {table} ({cols}) VALUES ({vals})" []
          [("table", table_sql); ("cols", cols_sql); ("vals", vals)] in
      if truthy_seq return_columns then
        let ret_sql := join ", " (map Identifier (some_list return_columns)) in
        Execute (mkCall (add (add base (SQL " RETURNING ")) ret_sql) (Some values) (Some "one"))
      else
        Execute (mkCall base (Some values) None)
  end.

Definition delete_from_table (table : string)
    (where_ : option (list (string * PyVal))) (where_sql : option string)
    (where_params : option (list PyVal)) (limit : option Z) : Result :=
  if negb (truthy_seq where_) && negb (truthy_str where_sql) then
    ValueError "DELETE requires a where clause (where dict or where_sql)."
  else
    let table_sql := Identifier table in
    let query0 := format "DELETE FROM {table}" [] [("table", table_sql)] in
    let params0 : list PyVal := [] in
    let '(query1, params1) :=
      if truthy_seq where_ then
        (add (add query0 (SQL " WHERE ")) (join " AND " (where_parts (some_list where_))),
         params0 ++ map snd (some_list where_))
      else if truthy_str where_sql then
        (add (add query0 (SQL " WHERE ")) (SQL (default "" where_sql)),
         if truthy_seq where_params then params0 ++ some_list where_params else params0)
      else (query0, params0) in
    let '(query2, params2) :=
      match limit with
      | Some n =>
          let q := format "DELETE FROM {table} WHERE ctid IN (SELECT ctid FROM {table}" []
                     [("table", table_sql)] in
          let q :=
            if truthy_seq where_ then
              add (add q (SQL " WHERE "))
                  (join " AND " (map (fun k => format "{} = %s" [Identifier k] [])
                                     (map fst (some_list where_))))
            else if truthy_str where_sql then
              add (add q (SQL " WHERE ")) (SQL (default "" where_sql))
            else q in
          (add q (SQL " LIMIT %s)"), params1 ++ [VInt n])
      | None => (query1, params1)
      end in
    Execute (mkCall query2 (or_none params2) None).

(** *** Observations on composed queries *)

(** The SQL texts written in dbProvider.py itself. *)
Definition literals : list string :=
  ["SELECT "; " FROM "; "*"; ", "; " WHERE "; " AND "; " = %s"; " ORDER BY ";
   " LIMIT %s"; "INSERT INTO "; " ("; ") VALUES ("; ")"; " RETURNING ";
   "DELETE FROM "; " WHERE ctid IN (SELECT ctid FROM "; " LIMIT %s)"].

(** A leaf is safe when it is a quoted identifier, a placeholder, or SQL
    text written in the source; [raw] is a text allowed besides. *)
Definition safe_atom (raw : option string) (a : Atom) : Prop :=
  match a with
  | ASql t => In t literals \/ raw = Some t
  | AIdent _ => True
  | APlaceholder => True
  end.

(** The raw condition a builder splices in: [where_sql], when the [where]
    mapping is empty or absent and [where_sql] is not empty. *)
Definition spliced (where_ : option (list (string * PyVal)))
    (where_sql : option string) : option string :=
  if truthy_seq where_ then None
  else if truthy_str where_sql then where_sql
  else None.

Definition call_of (r : Result) : option Call :=
  match r with
  | Execute c => Some c
  | ValueError _ => None
  end.

Definition query_of (r : Result) : option Composable :=
  option_map query (call_of r).

(** The column names of an optional mapping. *)
Definition keys_of (where_ : option (list (string * PyVal))) : option (list string) :=
  option_map (map fst) where_.

Definition limit_param (limit : option Z) : list PyVal :=
  match limit with
  | Some n => [VInt n]
  | None => []
  end.

(** The parameters of the raw condition, when it is the one used. *)
Definition raw_params (where_ : option (list (string * PyVal)))
    (where_sql : option string) (where_params : option (list PyVal)) : list PyVal :=
  if truthy_seq where_ then []
  else if truthy_str where_sql then some_list where_params
  else [].

End DbProvider.


(* ------------------------------------------------------------------------- *)
(** ** Properties of base64.b64encode *)
(* ------------------------------------------------------------------------- *)

Module Base64Facts.
Import Base64.

Example b64encode_Man : b64encode [x4d; x61; x6e]%byte = "TWFu".
Proof. reflexivity. Qed.

Example b64encode_Ma : b64encode [x4d; x61]%byte = "TWE=".
Proof. reflexivity. Qed.

Example b64encode_M : b64encode [x4d]%byte = "TQ==".
Proof. reflexivity. Qed.

Example b64encode_jpeg_magic : b64encode [xff; xd8; xff; xe0]%byte = "/9j/4A==".
Proof. reflexivity. Qed.

(** Induction on byte strings three bytes at a time. *)
Lemma list_ind3 {A : Type} (P : list A -> Prop) :
  P [] -> (forall a, P [a]) -> (forall a b, P [a; b]) ->
  (forall a b c l, P l -> P (a :: b :: c :: l)) ->
  forall l, P l.
Proof.
  intros H0 H1 H2 H3 l.
  assert (P l /\ (forall a, P (a :: l)) /\ (forall a b, P (a :: b :: l))) as [H _].
  { induction l as [|x l (IH0 & IH1 & IH2)]; [done|].
    split; [apply IH1|]. split; [intros a; apply IH2|].
    intros a b. by apply H3. }
  exact H.
Qed.

(** The output has four characters for every started group of three bytes. *)
Lemma b64encode_length (bs : list byte) :
  String.length (b64encode bs) = 4 * ((length bs + 2) / 3).
Proof.
  induction bs as [|a|a b|a b c l IH] using list_ind3; try reflexivity.
  cbn [b64encode String.length length]. rewrite IH.
  replace (S (S (S (length l))) + 2) with ((length l + 2) + 1 * 3) by lia.
  rewrite Nat.div_add by done. lia.
Qed.

End Base64Facts.

(* ------------------------------------------------------------------------- *)
(** ** Properties of the stream worker and the routes *)
(* ------------------------------------------------------------------------- *)

Module ServerFacts.
Import Server.

Arguments truthy : simpl never.

(** Symbolic execution of one step: unfold the monad, then split on the
    variables that decide the control flow. *)
Ltac unfold_worker :=
  unfold act, control, route, set_stream, data_get_rtsp_url, stop_stream,
    status, put_rtsp_url, tick, exec, stream_worker_while, stream_worker_body, process_frame,
    try_pass, bind, with_lock, get_rtsp_url, get_running, gets, modify,
    VideoCapture, cap_isOpened, cap_read, cv_detect, cv_imencode, socketio_emit,
    sleep, cap_release, call, log, ret, raise in *.

Ltac split_var :=
  match goal with
  | |- context [match ?x with _ => _ end] => is_var x; destruct x
  | |- context [if ?x then _ else _] => is_var x; destruct x
  | |- context [negb ?x] => is_var x; destruct x
  | |- context [decide ?P] => destruct (decide P)
  | |- context [truthy ?u] => destruct (truthy u) eqn:?
  end.

(** What an answer carries is split when the code looks into it. *)
Ltac open_payload a :=
  lazymatch type of a with
  | bool => destruct a
  | (bool * option Frame)%type => destruct a as [[|] [?|]]
  | (_ * _)%type => destruct a
  | _ => idtac
  end.

(** The next decision of the control flow, in program order: the address,
    then the locals, then the answers of the world in the order of their
    call sites, so that an answer is split only on the paths that reach it. *)
Ltac split_next :=
  first
    [ match goal with
      | x : Data |- context [match ?y with _ => _ end] => constr_eq x y; destruct x
      end
    | match goal with
      | |- context [truthy ?u] => destruct (truthy u) eqn:?
      end
    | match goal with
      | |- context [decide ?P] => destruct (decide P)
      end
    | match goal with
      | x : bool |- context [if ?y then _ else _] => constr_eq x y; destruct x
      | x : option Handle |- context [match ?y with _ => _ end] =>
          constr_eq x y; destruct x
      end
    | match reverse goal with
      | x : Outcome _ |- _ =>
          match goal with |- context [x] => idtac end;
          let a := fresh "a" in
          destruct x as [a|?]; [open_payload a|]
      end ].

Ltac crush :=
  cbn in *; subst; cbn; repeat (split_next; cbn); repeat (split_var; cbn).

Ltac open_state s o :=
  destruct s as [st_u st_r st_l st_c st_p st_n];
  destruct o as [o_rc o_cc o_io o_rr o_cr o_rd o_dt o_en o_em o_rx].

(** *** Schedules *)

Lemma run_cons (x : Action) (a : list Action) (s : Sys) :
  run (x :: a) s = ((run a (act x s).1).1, (act x s).2 ++ (run a (act x s).1).2).
Proof.
  cbn. destruct (act x s) as [s1 e1]. cbn. by destruct (run a s1).
Qed.

Lemma run_app_state (a b : list Action) (s : Sys) :
  (run (a ++ b) s).1 = (run b (run a s).1).1.
Proof.
  revert s. induction a as [|x a IH]; intros s; [done|].
  rewrite <- app_comm_cons, !run_cons. cbn [fst snd]. apply IH.
Qed.

Lemma run_app_log (a b : list Action) (s : Sys) :
  (run (a ++ b) s).2 = (run a s).2 ++ (run b (run a s).1).2.
Proof.
  revert s. induction a as [|x a IH]; intros s; [done|].
  rewrite <- app_comm_cons, !run_cons. cbn [fst snd].
  by rewrite IH, app_assoc.
Qed.

(** A worker that returned or died does nothing more. *)
Lemma tick_inactive (o : Oracle) (s : Sys) :
  active (pc s) = false -> tick o s = (s, []).
Proof. unfold tick. by destruct (pc s). Qed.

(** *** Capture objects *)




(** A [set_stream] request that is not accepted changes nothing. *)
Lemma act_not_accepted (data : Data) (s : Sys) :
  accepted data = false -> act (Ctl (SetStream data)) s = (s, []).
Proof.
  destruct data as [fields|]; cbn [accepted]; intros H; [|done].
  unfold_worker. by rewrite H.
Qed.

(** The routes do not touch the worker's locals. *)
Lemma control_locals (op : ControlOp) (s : Sys) :
  let s1 := (act (Ctl op) s).1 in
  cap s1 = cap s /\ last_url s1 = last_url s /\ pc s1 = pc s /\
  next_handle s1 = next_handle s /\ running s1 = running s.
Proof.
  destruct op; unfold_worker; crush; done.
Qed.

Lemma control_quiet (op : ControlOp) (s : Sys) :
  let tr := (act (Ctl op) s).2 in
  captures tr = [] /\ releases tr = [] /\ reads tr = [] /\ emits tr = [].
Proof.
  destruct op; unfold_worker; crush; done.
Qed.





Lemma captures_app (tr1 tr2 : list Event) :
  captures (tr1 ++ tr2) = captures tr1 ++ captures tr2.
Proof. apply omap_app. Qed.


(** *** Release and reopen on an address change *)

Lemma releases_app (tr1 tr2 : list Event) :
  releases (tr1 ++ tr2) = releases tr1 ++ releases tr2.
Proof. apply omap_app. Qed.

Lemma emits_app (tr1 tr2 : list Event) :
  emits (tr1 ++ tr2) = emits tr1 ++ emits tr2.
Proof. apply omap_app. Qed.

Lemma reads_app (tr1 tr2 : list Event) :
  reads (tr1 ++ tr2) = reads tr1 ++ reads tr2.
Proof. apply omap_app. Qed.




(** *** Idling on an empty address *)

(** One step while the address is empty and the flag is set: the worker
    keeps its capture and calls nothing but [time.sleep]. *)
Lemma act_idle (a : Action) (s : Sys) :
  keeps_empty a = true -> truthy (rtsp_url s) = false ->
  running s = true -> active (pc s) = true ->
  truthy (rtsp_url (act a s).1) = false /\
  running (act a s).1 = true /\
  active (pc (act a s).1) = true /\
  cap (act a s).1 = cap s /\
  last_url (act a s).1 = last_url s /\
  emits (act a s).2 = [] /\ releases (act a s).2 = [] /\
  captures (act a s).2 = [] /\ reads (act a s).2 = [].
Proof.
  intros Hk Hu Hr Ha. destruct a as [op|o].
  - destruct op as [data| |]; cbn in Hk.
    + apply negb_true_iff in Hk. rewrite (act_not_accepted _ _ Hk). cbn. done.
    + destruct s; cbn in *. done.
    + destruct s; cbn in *. done.
  - open_state s o. cbn in *. subst. destruct st_p; try discriminate.
    + unfold_worker. cbn. done.
    + unfold_worker. cbn. rewrite Hu. cbn. done.
Qed.

Lemma run_idle (sched : list Action) (s : Sys) :
  forallb keeps_empty sched = true -> truthy (rtsp_url s) = false ->
  running s = true -> active (pc s) = true ->
  truthy (rtsp_url (run sched s).1) = false /\
  active (pc (run sched s).1) = true /\
  cap (run sched s).1 = cap s /\
  last_url (run sched s).1 = last_url s /\
  emits (run sched s).2 = [] /\ releases (run sched s).2 = [] /\
  captures (run sched s).2 = [] /\ reads (run sched s).2 = [].
Proof.
  revert s. induction sched as [|a sched IH]; intros s Hk Hu Hr Ha.
  - cbn. done.
  - cbn in Hk. apply andb_true_iff in Hk as [Hk1 Hk2].
    destruct (act_idle a s Hk1 Hu Hr Ha)
      as (Hu1 & Hr1 & Ha1 & Hc1 & Hl1 & He1 & Hrl1 & Hcp1 & Hrd1).
    destruct (IH _ Hk2 Hu1 Hr1 Ha1)
      as (Hu2 & Ha2 & Hc2 & Hl2 & He2 & Hrl2 & Hcp2 & Hrd2).
    rewrite run_cons. cbn [fst snd].
    rewrite emits_app, releases_app, captures_app, reads_app.
    rewrite He1, He2, Hrl1, Hrl2, Hcp1, Hcp2, Hrd1, Hrd2, Hc2, Hl2, Hc1, Hl1.
    done.
Qed.

(** When the address set after the stop is the one used last, the worker
    goes on with the capture it kept: nothing is released or constructed. *)
Example same_address_after_stop_reuses_capture :
  run (Ctl StopStream ::
       iteration (answers true (Returns (true, Some 7)) [] (Returns (true, []))) ++
       Ctl (SetStream camA) ::
       iteration (answers true (Returns (true, Some 8)) [] (Returns (true, [xff]%byte))))
      camA_open =
    (camA_open,
     [EvAcquire; EvSet "rtsp_url" (VUrl UNone) true; EvUnlock;
      EvGet "running" (VFlag true) false;
      EvAcquire; EvGet "rtsp_url" (VUrl UNone) true; EvUnlock; EvSleep 500;
      EvAcquire; EvSet "rtsp_url" (VUrl (UStr "camA")) true; EvUnlock;
      EvGet "running" (VFlag true) false;
      EvAcquire; EvGet "rtsp_url" (VUrl (UStr "camA")) true; EvUnlock;
      EvIsOpened 0; EvRead 0; EvDetect []; EvImencode [xff]%byte;
      EvEmit "/w==" 0; EvSleep 30]).
Proof. reflexivity. Qed.

(** C1, as stated, fails. The worker holds capture 0 on camA when
    [stop_stream] clears the address. In the two iterations that follow the
    worker reads the empty address, sleeps and continues: [cap.release()] is
    never called and capture 0 is still held, although the camera was ready to
    deliver a frame. *)
Lemma stop_stream_leaves_capture_open :
  run (Ctl StopStream ::
       iteration (answers true (Returns (true, Some 7)) [] (Returns (true, []))) ++
       iteration (answers true (Returns (true, Some 8)) [] (Returns (true, []))))
      camA_open =
    (mkSys UNone true (UStr "camA") (Some 0) AtWhile 1,
     [EvAcquire; EvSet "rtsp_url" (VUrl UNone) true; EvUnlock;
      EvGet "running" (VFlag true) false;
      EvAcquire; EvGet "rtsp_url" (VUrl UNone) true; EvUnlock; EvSleep 500;
      EvGet "running" (VFlag true) false;
      EvAcquire; EvGet "rtsp_url" (VUrl UNone) true; EvUnlock; EvSleep 500]) /\
  releases (run (Ctl StopStream ::
       iteration (answers true (Returns (true, Some 7)) [] (Returns (true, []))) ++
       iteration (answers true (Returns (true, Some 8)) [] (Returns (true, []))))
      camA_open).2 = [].
Proof. split; reflexivity. Qed.

(** *** Failed reads *)




(** *** The frame pipeline *)

(** A pass that reads a frame and gets it through detection, encoding and
    emit publishes one message and ends. *)
Lemma tick_delivers (s : Sys) (o : Oracle) (h : Handle) (u : string)
    (item : list Box * list byte) :
  pc s = InBody -> rtsp_url s = UStr u -> truthy (UStr u) = true ->
  last_url s = UStr u -> cap s = Some h -> delivers o item ->
  tick o s =
    (set_pc AtWhile s,
     [EvAcquire; EvGet "rtsp_url" (VUrl (UStr u)) true; EvUnlock;
      EvIsOpened h; EvRead h; EvDetect item.1; EvImencode item.2;
      EvEmit (Base64.b64encode item.2) (length item.1); EvSleep 30]).
Proof.
  intros Hpc Hurl Htr Hlast Hcap (Hio & [f Hrd] & Hdt & [ok Hen] & Hem).
  open_state s o. cbn in *. subst. unfold_worker. cbn. rewrite Htr. cbn.
  destruct (decide (UStr u = UStr u)) as [_|]; [|done]. done.
Qed.

(** A pass in which [cv2.imencode] raises. *)
Lemma tick_encode_raises (s : Sys) (o : Oracle) (h : Handle) (u e : string)
    (f : Frame) (faces : list Box) :
  pc s = InBody -> rtsp_url s = UStr u -> truthy (UStr u) = true ->
  last_url s = UStr u -> cap s = Some h ->
  is_opened o = Returns true -> read o = Returns (true, Some f) ->
  detect o = Returns faces -> imencode o = Raises e ->
  tick o s =
    (set_pc Crashed s,
     [EvAcquire; EvGet "rtsp_url" (VUrl (UStr u)) true; EvUnlock;
      EvIsOpened h; EvRead h; EvDetect faces]).
Proof.
  intros Hpc Hurl Htr Hlast Hcap Hio Hrd Hdt Hen.
  open_state s o. cbn in *. subst. unfold_worker. cbn. rewrite Htr. cbn.
  destruct (decide (UStr u = UStr u)) as [_|]; [|done]. done.
Qed.

(** When no call outside a [try] block raises, the body ends at the loop
    condition. *)
Lemma tick_calm (s : Sys) (o : Oracle) :
  pc s = InBody -> calm o -> pc (tick o s).1 = AtWhile.
Proof.
  intros Hpc ([a1 H1] & [a2 H2] & [a3 H3] & [a4 H4] & [a5 H5] & [a6 H6] & [a7 H7]).
  open_state s o. cbn in *. subst. unfold_worker. crush; done.
Qed.

(** The worker returns only from the loop condition, on a false flag. *)
Lemma tick_finished (s : Sys) (o : Oracle) :
  pc (tick o s).1 = Finished <->
  pc s = Finished \/ (pc s = AtWhile /\ running s = false).
Proof.
  open_state s o. destruct st_p.
  - unfold_worker. crush; split; intros; try done; try (by right).
    all: by destruct H as [|[_ ?]].
  - unfold_worker. crush; split; intros; try done.
    all: by destruct H as [|[? _]].
  - cbn. split; intros; [by left | done].
  - cbn. split; intros; [done|]. by destruct H as [|[? _]].
Qed.

(** C3, as stated, fails. The worker holds capture 0 on camA and reads a
    frame, and [cv2.imencode] raises. The exception is not caught: the
    worker thread ends in the middle of the pass, the next iteration never
    starts, and capture 0 is not released. *)
Lemma encode_error_kills_worker :
  run (iteration (answers true (Returns (true, Some 7)) [] (Raises "cv2.error")) ++
       iteration (answers true (Returns (true, Some 8)) [] (Returns (true, []))))
      camA_open =
    (mkSys (UStr "camA") true (UStr "camA") (Some 0) Crashed 1,
     [EvGet "running" (VFlag true) false;
      EvAcquire; EvGet "rtsp_url" (VUrl (UStr "camA")) true; EvUnlock;
      EvIsOpened 0; EvRead 0; EvDetect []]).
Proof. reflexivity. Qed.

(** C3, as the code has it. The encode step has no error handling of its
    own. When [cv2.imencode] returns, its success flag is not looked at: the
    bytes are published and the pass ends at the loop condition. When it
    raises, the worker ends at once, with nothing published and nothing
    released. A pass in which no call outside a [try] block raises reaches
    the loop condition, and the worker returns only by reading a false
    [running] flag there; a worker that returned or was ended by an
    exception takes no further step. *)
Theorem encode_outcome_handling :
  (forall (s : Sys) (o : Oracle) (h : Handle) (u : string)
          (item : list Box * list byte),
      pc s = InBody -> rtsp_url s = UStr u -> truthy (UStr u) = true ->
      last_url s = UStr u -> cap s = Some h -> delivers o item ->
      tick o s =
        (set_pc AtWhile s,
         [EvAcquire; EvGet "rtsp_url" (VUrl (UStr u)) true; EvUnlock;
          EvIsOpened h; EvRead h; EvDetect item.1; EvImencode item.2;
          EvEmit (Base64.b64encode item.2) (length item.1); EvSleep 30])) /\
  (forall (s : Sys) (o : Oracle) (h : Handle) (u e : string)
          (f : Frame) (faces : list Box),
      pc s = InBody -> rtsp_url s = UStr u -> truthy (UStr u) = true ->
      last_url s = UStr u -> cap s = Some h ->
      is_opened o = Returns true -> read o = Returns (true, Some f) ->
      detect o = Returns faces -> imencode o = Raises e ->
      tick o s =
        (set_pc Crashed s,
         [EvAcquire; EvGet "rtsp_url" (VUrl (UStr u)) true; EvUnlock;
          EvIsOpened h; EvRead h; EvDetect faces])) /\
  (forall (s : Sys) (o : Oracle),
      pc s = InBody -> calm o -> pc (tick o s).1 = AtWhile) /\
  (forall (s : Sys) (o : Oracle),
      pc (tick o s).1 = Finished <->
      pc s = Finished \/ (pc s = AtWhile /\ running s = false)) /\
  (forall (s : Sys) (o : Oracle),
      active (pc s) = false -> tick o s = (s, [])).
Proof.
  split; [exact tick_delivers|].
  split; [exact tick_encode_raises|].
  split; [exact tick_calm|].
  split; [exact tick_finished | exact (fun s o => tick_inactive o s)].
Qed.

(** Capture 0 on camA and a frame read: [cv2.imencode] returns a false flag
    with two bytes in one pass, and raises in another. *)
Lemma encode_outcome_handling_witness :
  tick (answers true (Returns (true, Some 7)) [(1, 2, 3, 4)%Z]
                (Returns (false, [x4d; x61]%byte)))
       (set_pc InBody camA_open) =
    (camA_open,
     [EvAcquire; EvGet "rtsp_url" (VUrl (UStr "camA")) true; EvUnlock;
      EvIsOpened 0; EvRead 0; EvDetect [(1, 2, 3, 4)%Z];
      EvImencode [x4d; x61]%byte; EvEmit "TWE=" 1; EvSleep 30]) /\
  tick (answers true (Returns (true, Some 7)) [] (Raises "cv2.error"))
       (set_pc InBody camA_open) =
    (mkSys (UStr "camA") true (UStr "camA") (Some 0) Crashed 1,
     [EvAcquire; EvGet "rtsp_url" (VUrl (UStr "camA")) true; EvUnlock;
      EvIsOpened 0; EvRead 0; EvDetect []]).
Proof.
  split.
  - apply (proj1 encode_outcome_handling (set_pc InBody camA_open)
             (answers true (Returns (true, Some 7)) [(1, 2, 3, 4)%Z]
                      (Returns (false, [x4d; x61]%byte)))
             0 "camA" ([(1, 2, 3, 4)%Z], [x4d; x61]%byte)); try reflexivity.
    repeat split; try reflexivity; eexists; reflexivity.
  - apply (proj1 (proj2 encode_outcome_handling) (set_pc InBody camA_open)
             (answers true (Returns (true, Some 7)) [] (Raises "cv2.error"))
             0 "camA" "cv2.error" 7 []); reflexivity.
Defined.

(** *** The running flag and the exit of the loop *)

(** After the worker returned, requests are still served but the worker
    calls nothing. *)
Lemma run_finished (sched : list Action) (s : Sys) :
  pc s = Finished ->
  pc (run sched s).1 = Finished /\
  releases (run sched s).2 = [] /\ captures (run sched s).2 = [] /\
  reads (run sched s).2 = [] /\ emits (run sched s).2 = [].
Proof.
  revert s. induction sched as [|a sched IH]; intros s Hpc; [done|].
  rewrite run_cons. cbn [fst snd].
  rewrite releases_app, captures_app, reads_app, emits_app.
  destruct a as [op|o].
  - destruct (control_locals op s) as (_ & _ & Hp & _).
    destruct (control_quiet op s) as (-> & -> & -> & ->).
    apply IH. by rewrite Hp.
  - cbn [act]. rewrite tick_inactive by (by rewrite Hpc). by apply IH.
Qed.

(** C4, as stated, fails. No route writes [state['running']], so no
    request makes the flag false; [stop_stream] clears the address only.
    From the start of the process, after [stop_stream] and a full iteration
    the worker is back at the loop condition, not returned. *)
Lemma no_route_clears_running :
  ~ (exists op : ControlOp, running (act (Ctl op) init).1 = false) /\
  run (Ctl StopStream ::
       iteration (answers true (Returns (true, Some 7)) [] (Returns (true, []))))
      init =
    (mkSys UNone true UNone None AtWhile 0,
     [EvAcquire; EvSet "rtsp_url" (VUrl UNone) true; EvUnlock;
      EvGet "running" (VFlag true) false;
      EvAcquire; EvGet "rtsp_url" (VUrl UNone) true; EvUnlock; EvSleep 500]).
Proof.
  split; [|reflexivity].
  intros [op H]. destruct (control_locals op init) as (_ & _ & _ & _ & Hr).
  rewrite Hr in H. discriminate.
Qed.

(** C4, as the code has it. Every route leaves [running] as it was. When
    the worker reads a false flag at the loop condition it returns in that
    step, calling release exactly once on the capture it holds, or not at
    all when it holds none; whatever is scheduled afterwards, it releases,
    constructs, reads and emits nothing more. *)
Theorem exit_on_false_flag_releases_once :
  (forall (op : ControlOp) (s : Sys), running (act (Ctl op) s).1 = running s) /\
  (forall (s : Sys) (o : Oracle) (h : Handle),
      pc s = AtWhile -> running s = false -> cap s = Some h ->
      tick o s =
        (set_pc Finished s, [EvGet "running" (VFlag false) false; EvRelease h])) /\
  (forall (s : Sys) (o : Oracle),
      pc s = AtWhile -> running s = false -> cap s = None ->
      tick o s = (set_pc Finished s, [EvGet "running" (VFlag false) false])) /\
  (forall (s : Sys) (sched : list Action),
      pc s = Finished ->
      pc (run sched s).1 = Finished /\
      releases (run sched s).2 = [] /\ captures (run sched s).2 = [] /\
      reads (run sched s).2 = [] /\ emits (run sched s).2 = []).
Proof.
  split; [|split; [|split]].
  - intros op s. by destruct (control_locals op s) as (_ & _ & _ & _ & ?).
  - intros s o h Hpc Hr Hc. open_state s o. cbn in *. subst.
    unfold_worker. crush; done.
  - intros s o Hpc Hr Hc. open_state s o. cbn in *. subst.
    unfold_worker. crush; done.
  - intros s sched. apply run_finished.
Qed.

(** A worker holding capture 0 on camA that finds the flag false, and what
    follows when more steps are scheduled. *)
Lemma exit_on_false_flag_releases_once_witness :
  tick (answers true (Returns (true, Some 7)) [] (Returns (true, [])))
       (mkSys (UStr "camA") false (UStr "camA") (Some 0) AtWhile 1) =
    (mkSys (UStr "camA") false (UStr "camA") (Some 0) Finished 1,
     [EvGet "running" (VFlag false) false; EvRelease 0]) /\
  releases (run three_passes
              (mkSys (UStr "camA") false (UStr "camA") (Some 0) Finished 1)).2 = [].
Proof.
  split.
  - apply (proj1 (proj2 exit_on_false_flag_releases_once)
             (mkSys (UStr "camA") false (UStr "camA") (Some 0) AtWhile 1)
             (answers true (Returns (true, Some 7)) [] (Returns (true, [])))
             0); reflexivity.
  - apply (proj2 (proj2 (proj2 exit_on_false_flag_releases_once))
             (mkSys (UStr "camA") false (UStr "camA") (Some 0) Finished 1)
             three_passes). reflexivity.
Defined.

(** *** Accesses to the shared state *)

Lemma lock_discipline_app (tr1 tr2 : list Event) (held : bool) :
  lock_discipline held tr1 = true -> lock_discipline false tr2 = true ->
  lock_discipline held (tr1 ++ tr2) = true.
Proof.
  revert held. induction tr1 as [|e tr1 IH]; intros held H1 H2; cbn in *.
  - by destruct held.
  - destruct e; cbn in *;
      apply andb_true_iff in H1 as [Hh H1]; rewrite Hh; cbn; by apply IH.
Qed.

Lemma reads_latest_app (tr1 tr2 : list Event) (cur : Url) :
  reads_latest cur (tr1 ++ tr2) =
  reads_latest cur tr1 && reads_latest (last_write cur tr1) tr2.
Proof.
  revert cur. induction tr1 as [|e tr1 IH]; intros cur; cbn; [done|].
  destruct e as [| |k v g|k v g| | | | | | | |]; try apply IH.
  - destruct v; [|apply IH].
    destruct (String.eqb k "rtsp_url"); [|apply IH].
    by rewrite IH, andb_assoc.
  - destruct v; [|apply IH].
    destruct (String.eqb k "rtsp_url"); apply IH.
Qed.

(** One step: how it accesses [state], and that the log tells the value of
    [rtsp_url] it leaves. *)
Lemma act_access (a : Action) (s : Sys) :
  forallb access_ok (act a s).2 = true /\
  lock_discipline false (act a s).2 = true /\
  reads_latest (rtsp_url s) (act a s).2 = true /\
  last_write (rtsp_url s) (act a s).2 = rtsp_url (act a s).1.
Proof.
  destruct a as [op|o].
  - destruct op; unfold_worker; crush; repeat split; try done.
    all: by case_bool_decide.
  - open_state s o. destruct st_p.
    + unfold_worker. crush; done.
    + unfold_worker. crush; repeat split; try done.
      all: by case_bool_decide.
    + done.
    + done.
Qed.

(** C5, as stated, fails. From the start of the process, the first step of
    the worker evaluates [state['running']] in the [while] condition, outside
    any [with state_lock] block. *)
Lemma running_flag_read_unguarded :
  (tick (answers true (Returns (true, Some 7)) [] (Returns (true, []))) init).2 =
    [EvGet "running" (VFlag true) false] /\
  all_guarded
    (run (iteration (answers true (Returns (true, Some 7)) [] (Returns (true, []))))
         init).2 = false.
Proof. split; reflexivity. Qed.

(** C5, as the code has it. In every interleaving of requests and worker
    steps, from any state: [rtsp_url] is read and written only inside
    [with state_lock] blocks, while [running] is never written and is read
    by the worker outside the lock; the lock is taken and dropped in turn
    and never held across a call into cv2, Socket.IO or [time.sleep]; and
    every read of [rtsp_url] returns the value of the latest write, or the
    starting value when there was none. *)
Theorem shared_state_access_discipline :
  forall (sched : list Action) (s : Sys),
    forallb access_ok (run sched s).2 = true /\
    lock_discipline false (run sched s).2 = true /\
    reads_latest (rtsp_url s) (run sched s).2 = true /\
    last_write (rtsp_url s) (run sched s).2 = rtsp_url (run sched s).1.
Proof.
  induction sched as [|a sched IH]; intros s; [done|].
  rewrite run_cons. cbn [fst snd].
  destruct (act_access a s) as (Ha1 & Ha2 & Ha3 & Ha4).
  destruct (IH (act a s).1) as (Hb1 & Hb2 & Hb3 & Hb4).
  repeat split.
  - rewrite forallb_app, Ha1, Hb1. done.
  - by apply lock_discipline_app.
  - rewrite reads_latest_app, Ha3, Ha4, Hb3. done.
  - rewrite <- Hb4, <- Ha4. clear.
    generalize (rtsp_url s). induction (act a s).2 as [|e tr IHtr]; intros cur; [done|].
    cbn. destruct e as [| |k v g|k v g| | | | | | | |]; try apply IHtr.
    destruct v; [|apply IHtr]. destruct (String.eqb k "rtsp_url"); apply IHtr.
Qed.

(** *** One message per frame *)

(** A full iteration in the steady state: the flag is set, the address is
    unchanged and the capture delivers a frame. *)
Lemma iteration_delivers (s : Sys) (o : Oracle) (h : Handle) (u : string)
    (item : list Box * list byte) :
  pc s = AtWhile -> running s = true -> rtsp_url s = UStr u ->
  truthy (UStr u) = true -> last_url s = UStr u -> cap s = Some h ->
  delivers o item ->
  run (iteration o) s =
    (s, [EvGet "running" (VFlag true) false;
         EvAcquire; EvGet "rtsp_url" (VUrl (UStr u)) true; EvUnlock;
         EvIsOpened h; EvRead h; EvDetect item.1; EvImencode item.2;
         EvEmit (Base64.b64encode item.2) (length item.1); EvSleep 30]).
Proof.
  intros Hpc Hr Hurl Htr Hlast Hcap Hd.
  assert (tick o s = (set_pc InBody s, [EvGet "running" (VFlag true) false])) as H1.
  { destruct s; cbn in *; subst. done. }
  unfold iteration. rewrite !run_cons. cbn [act fst snd run]. rewrite H1. cbn [fst snd].
  rewrite (tick_delivers (set_pc InBody s) o h u item) by (destruct s; done).
  cbn [fst snd]. destruct s; cbn in *; subst. done.
Qed.

(** One step publishes what its own detections and encodings call for. *)
Lemma act_expected (a : Action) (s : Sys) (faces : list Box) :
  exists faces' : list Box,
    forall tail : list Event,
      expected faces ((act a s).2 ++ tail) =
      emits (act a s).2 ++ expected faces' tail.
Proof.
  destruct a as [op|o].
  - destruct op; unfold_worker; crush; eexists; intros; reflexivity.
  - open_state s o. destruct st_p.
    + unfold_worker. crush; eexists; intros; reflexivity.
    + unfold_worker. crush; eexists; intros; reflexivity.
    + eexists; intros; reflexivity.
    + eexists; intros; reflexivity.
Qed.

Lemma run_expected (sched : list Action) (s : Sys) (faces : list Box) :
  expected faces (run sched s).2 = emits (run sched s).2.
Proof.
  revert s faces. induction sched as [|a sched IH]; intros s faces; [done|].
  rewrite run_cons. cbn [fst snd].
  destruct (act_expected a s faces) as [faces' H].
  by rewrite H, emits_app, IH.
Qed.

(** C6. In every execution the messages emitted are, in order, exactly one
    for each frame that came out of [cv2.imencode]: the base64 text of its
    JPEG bytes with the number of detections made on it. While the flag is
    set, the address is unchanged and the capture held is opened, a sequence
    of iterations that each read a frame and get it through detection,
    encoding and emit publishes exactly one message per frame read, in the
    order of the reads; every read is made on the capture held, and the
    worker ends in the state it started from. *)
Theorem one_message_per_frame_in_order :
  (forall (sched : list Action) (s : Sys),
      emits (run sched s).2 = expected [] (run sched s).2) /\
  (forall (s : Sys) (h : Handle) (u : string) (os : list Oracle)
          (items : list (list Box * list byte)),
      pc s = AtWhile -> running s = true -> rtsp_url s = UStr u ->
      truthy (UStr u) = true -> last_url s = UStr u -> cap s = Some h ->
      Forall2 delivers os items ->
      emits (run (concat (map iteration os)) s).2 = map message items /\
      reads (run (concat (map iteration os)) s).2 = repeat h (length items) /\
      (run (concat (map iteration os)) s).1 = s).
Proof.
  split; [intros sched s; by rewrite run_expected|].
  intros s h u os items Hpc Hr Hurl Htr Hlast Hcap Hall.
  induction Hall as [|o item os items Hd Hall IH]; [done|].
  cbn [map concat]. rewrite run_app_log, run_app_state.
  rewrite (iteration_delivers s o h u item) by done. cbn [fst snd].
  destruct IH as (IH1 & IH2 & IH3).
  rewrite emits_app, reads_app, IH1, IH2, IH3. done.
Qed.

(** Capture 0 on camA yields three frames with no, one and no detection. *)
Lemma one_message_per_frame_in_order_witness :
  emits (run (concat (map iteration
           [answers true (Returns (true, Some 7)) [] (Returns (true, [xff; xd8]%byte));
            answers true (Returns (true, Some 8)) [(10, 20, 30, 40)%Z]
                    (Returns (true, [xff; xd8; xff]%byte));
            answers true (Returns (true, Some 9)) [] (Returns (true, [xff]%byte))]))
         camA_open).2 =
    [("/9g=", 0); ("/9j/", 1); ("/w==", 0)] /\
  reads (run (concat (map iteration
           [answers true (Returns (true, Some 7)) [] (Returns (true, [xff; xd8]%byte));
            answers true (Returns (true, Some 8)) [(10, 20, 30, 40)%Z]
                    (Returns (true, [xff; xd8; xff]%byte));
            answers true (Returns (true, Some 9)) [] (Returns (true, [xff]%byte))]))
         camA_open).2 = [0; 0; 0] /\
  (run (concat (map iteration
           [answers true (Returns (true, Some 7)) [] (Returns (true, [xff; xd8]%byte));
            answers true (Returns (true, Some 8)) [(10, 20, 30, 40)%Z]
                    (Returns (true, [xff; xd8; xff]%byte));
            answers true (Returns (true, Some 9)) [] (Returns (true, [xff]%byte))]))
         camA_open).1 = camA_open.
Proof.
  apply (proj2 one_message_per_frame_in_order camA_open 0 "camA" _
           [([], [xff; xd8]%byte);
            ([(10, 20, 30, 40)%Z], [xff; xd8; xff]%byte);
            ([], [xff]%byte)]); try reflexivity.
  repeat constructor; eexists; reflexivity.
Defined.

(** The scenario from the start of the process: the address is set to camA,
    the first pass opens the capture and reads the first frame. *)
Example three_frames_from_start :
  emits (run (Ctl (SetStream camA) :: concat (map iteration
           [answers true (Returns (true, Some 7)) [] (Returns (true, [xff; xd8]%byte));
            answers true (Returns (true, Some 8)) [(10, 20, 30, 40)%Z]
                    (Returns (true, [xff; xd8; xff]%byte));
            answers true (Returns (true, Some 9)) [] (Returns (true, [xff]%byte))]))
         init).2 =
    [("/9g=", 0); ("/9j/", 1); ("/w==", 0)].
Proof. reflexivity. Qed.

(** *** The set_stream route *)

Lemma truthy_nonempty (a : string) : a <> "" -> truthy (UStr a) = true.
Proof. intros H. unfold truthy. by destruct (String.eqb_spec a ""). Qed.

(** C7. A request whose JSON object has no [rtsp_url], or has it null,
    empty or otherwise falsy, is answered with status 400 and leaves the
    whole state as it was, with no access to it. A request with a non-empty
    address (or any other truthy value) is answered with status 200 and
    that value, and afterwards [state['rtsp_url']] holds exactly that
    value, every other part of the state being what it was. A request
    whose body is valid JSON but no object (null, an array, a string, a
    number) has no address either; there [data.get] raises, the state is
    left as it was and the answer is status 500, not a client error. *)
Theorem set_stream_rejects_empty_else_stores :
  forall (s : Sys),
    (forall fields : gmap string Url,
       fields !! "rtsp_url" = None \/ fields !! "rtsp_url" = Some UNone \/
       fields !! "rtsp_url" = Some (UStr "") \/
       (exists class, fields !! "rtsp_url" = Some (UOther false class)) ->
       control (SetStream (DObject fields)) s =
         (Ret (mkResponse 400 [("ok", JBool false);
                               ("error", JStr "rtsp_url required")]),
          s, [])) /\
    (forall (fields : gmap string Url) (a : string),
       fields !! "rtsp_url" = Some (UStr a) -> a <> "" ->
       control (SetStream (DObject fields)) s =
         (Ret (mkResponse 200 [("ok", JBool true); ("rtsp_url", JStr a)]),
          mkSys (UStr a) (running s) (last_url s) (cap s) (pc s) (next_handle s),
          [EvAcquire; EvSet "rtsp_url" (VUrl (UStr a)) true; EvUnlock])) /\
    (forall (fields : gmap string Url) (class : nat),
       fields !! "rtsp_url" = Some (UOther true class) ->
       control (SetStream (DObject fields)) s =
         (Ret (mkResponse 200 [("ok", JBool true); ("rtsp_url", JOther true class)]),
          mkSys (UOther true class) (running s) (last_url s) (cap s) (pc s)
            (next_handle s),
          [EvAcquire; EvSet "rtsp_url" (VUrl (UOther true class)) true; EvUnlock])) /\
    control (SetStream DOther) s = (Exc "AttributeError", s, []) /\
    http_status (control (SetStream DOther) s).1.1 = 500%Z.
Proof.
  intros s. repeat split.
  - intros fields H. unfold control, route, set_stream, data_get_rtsp_url, bind, ret.
    assert (truthy (default UNone (fields !! "rtsp_url")) = false) as ->.
    { destruct H as [-> | [-> | [-> | [class ->]]]]; reflexivity. }
    reflexivity.
  - intros fields a H Ha.
    unfold control, route, set_stream, data_get_rtsp_url, bind, ret.
    rewrite H. cbn [default from_option id].
    rewrite (truthy_nonempty a Ha). by destruct s.
  - intros fields class H.
    unfold control, route, set_stream, data_get_rtsp_url, bind, ret.
    rewrite H. by destruct s.
Qed.

(** An empty object, an empty address and the number 0 are turned down;
    camA is stored, and so is the number 5; the bodies [null] and [[]] end
    in an exception. *)
Lemma set_stream_rejects_empty_else_stores_witness :
  control (SetStream (DObject ∅)) camA_open =
    (Ret (mkResponse 400 [("ok", JBool false); ("error", JStr "rtsp_url required")]),
     camA_open, []) /\
  control (SetStream (DObject {["rtsp_url" := UStr ""]})) camA_open =
    (Ret (mkResponse 400 [("ok", JBool false); ("error", JStr "rtsp_url required")]),
     camA_open, []) /\
  control (SetStream (DObject {["rtsp_url" := UOther false 0]})) camA_open =
    (Ret (mkResponse 400 [("ok", JBool false); ("error", JStr "rtsp_url required")]),
     camA_open, []) /\
  control (SetStream camA) init =
    (Ret (mkResponse 200 [("ok", JBool true); ("rtsp_url", JStr "camA")]),
     mkSys (UStr "camA") true UNone None AtWhile 0,
     [EvAcquire; EvSet "rtsp_url" (VUrl (UStr "camA")) true; EvUnlock]) /\
  control (SetStream (DObject {["rtsp_url" := UOther true 5]})) init =
    (Ret (mkResponse 200 [("ok", JBool true); ("rtsp_url", JOther true 5)]),
     mkSys (UOther true 5) true UNone None AtWhile 0,
     [EvAcquire; EvSet "rtsp_url" (VUrl (UOther true 5)) true; EvUnlock]) /\
  control (SetStream DOther) camA_open = (Exc "AttributeError", camA_open, []) /\
  http_status (control (SetStream DOther) camA_open).1.1 = 500%Z.
Proof.
  pose proof (set_stream_rejects_empty_else_stores camA_open) as (H & _ & _ & E & F).
  pose proof (set_stream_rejects_empty_else_stores init) as (_ & A & B & _ & _).
  split; [|split; [|split; [|split; [|split; [|split]]]]].
  - apply (H ∅). left. reflexivity.
  - apply (H {["rtsp_url" := UStr ""]}). right. right. left. reflexivity.
  - apply (H {["rtsp_url" := UOther false 0]}). right. right. right.
    exists 0. reflexivity.
  - apply (A {["rtsp_url" := UStr "camA"]} "camA"); [reflexivity | discriminate].
  - apply (B {["rtsp_url" := UOther true 5]} 5). reflexivity.
  - exact E.
  - exact F.
Defined.

(** A body that is valid JSON and no object, on the process as started: the
    answer is a server error. *)
Example set_stream_null_body_is_server_error :
  control (SetStream DOther) init = (Exc "AttributeError", init, []) /\
  http_status (control (SetStream DOther) init).1.1 = 500%Z /\
  ~ (400 <= http_status (control (SetStream DOther) init).1.1 < 500)%Z.
Proof. split; [reflexivity|]. split; [reflexivity|]. cbn. lia. Qed.

(** *** What the worker leaves alone *)

(** The worker never writes [state]. *)
Lemma tick_shared (o : Oracle) (s : Sys) :
  rtsp_url (tick o s).1 = rtsp_url s /\ running (tick o s).1 = running s.
Proof.
  open_state s o. destruct st_p.
  - unfold_worker. crush; done.
  - unfold_worker. crush; done.
  - done.
  - done.
Qed.

Lemma act_no_write (a : Action) (s : Sys) :
  no_write a = true -> rtsp_url (act a s).1 = rtsp_url s.
Proof.
  destruct a as [[data| |]|o]; cbn [no_write]; intros H; try done.
  - apply negb_true_iff in H. by rewrite (act_not_accepted _ _ H).
  - apply tick_shared.
Qed.

Lemma run_no_write (sched : list Action) (s : Sys) :
  forallb no_write sched = true -> rtsp_url (run sched s).1 = rtsp_url s.
Proof.
  revert s. induction sched as [|a sched IH]; intros s H; [done|].
  cbn in H. apply andb_true_iff in H as [Ha H].
  rewrite run_cons. cbn [fst]. rewrite IH by done. by apply act_no_write.
Qed.

(** X1. [status] answers with the address of the latest accepted
    [set_stream], or with null after [stop_stream], whatever the worker did
    since and whatever became of the connection: no step of the worker, no
    status request and no [set_stream] that is turned down changes
    [state['rtsp_url']]. *)
Theorem status_reports_last_request :
  forall (s : Sys) (sched : list Action),
    forallb no_write sched = true ->
    (forall (fields : gmap string Url) (a : string),
        fields !! "rtsp_url" = Some (UStr a) -> a <> "" ->
        (control Status (run (Ctl (SetStream (DObject fields)) :: sched) s).1).1.1 =
          Ret (mkResponse 200 [("rtsp_url", JStr a)])) /\
    (control Status (run (Ctl StopStream :: sched) s).1).1.1 =
      Ret (mkResponse 200 [("rtsp_url", JNull)]) /\
    rtsp_url (run sched s).1 = rtsp_url s /\
    (control Status s).1.2 = s.
Proof.
  intros s sched H. repeat split.
  - intros fields a Hd Ha. rewrite run_cons. cbn [fst]. unfold control at 1. cbn.
    rewrite run_no_write by done.
    unfold act, control, route, set_stream, data_get_rtsp_url, bind, ret.
    rewrite Hd. cbn [default from_option id]. rewrite (truthy_nonempty a Ha). done.
  - rewrite run_cons. cbn [fst]. unfold control at 1. cbn.
    rewrite run_no_write by done. done.
  - by apply run_no_write.
Qed.

(** The address is set to camA, the worker runs three iterations, one of
    them with a capture that reports not opened. *)
Lemma status_reports_last_request_witness :
  (control Status (run (Ctl (SetStream camA) :: three_passes) init).1).1.1 =
    Ret (mkResponse 200 [("rtsp_url", JStr "camA")]) /\
  (control Status (run (Ctl StopStream :: three_passes) init).1).1.1 =
    Ret (mkResponse 200 [("rtsp_url", JNull)]).
Proof.
  split.
  - apply (proj1 (status_reports_last_request init three_passes eq_refl)
             {["rtsp_url" := UStr "camA"]} "camA").
    + reflexivity.
    + discriminate.
  - apply (proj1 (proj2 (status_reports_last_request init three_passes eq_refl))).
Defined.

(** *** Calls on capture objects *)

Lemma act_uses_held (a : Action) (s : Sys) (held : option Handle) :
  holds s held ->
  exists held' : option Handle,
    holds (act a s).1 held' /\
    forall tail : list Event,
      uses_held held ((act a s).2 ++ tail) = uses_held held' tail.
Proof.
  intros [Hact Hfin]. destruct a as [op|o].
  - exists held. split.
    + destruct (control_locals op s) as (Hc & _ & Hp & _). unfold holds.
      rewrite Hc, Hp. done.
    + destruct op; unfold_worker; crush; done.
  - destruct (active (pc s)) eqn:Ha.
    + rewrite (Hact eq_refl). clear Hact Hfin.
      open_state s o. destruct st_p; try discriminate.
      * unfold_worker. crush.
        all: eexists; (split; [|intros; cbn; reflexivity]).
        all: split; intros; (done || discriminate).
      * unfold_worker. crush.
        all: eexists;
          (split; [|intros; cbn; rewrite ?bool_decide_eq_true_2 by done; reflexivity]).
        all: split; intros; (done || discriminate).
    + cbn [act]. rewrite tick_inactive by done. exists held. split; [|done].
      split; cbn [fst]; [rewrite Ha; exact Hact | exact Hfin].
Qed.

Lemma run_uses_held (sched : list Action) (s : Sys) (held : option Handle) :
  holds s held -> uses_held held (run sched s).2 = true.
Proof.
  revert s held. induction sched as [|a sched IH]; intros s held H; [done|].
  rewrite run_cons. cbn [snd].
  destruct (act_uses_held a s held H) as (held' & H' & Heq).
  rewrite Heq. by apply IH.
Qed.

(** X2. Over any execution from the start of the process, [cap.isOpened()]
    and [cap.read()] are called only on the capture constructed last and not
    released since: the worker never uses a capture after calling release on
    it, and never calls either before a capture exists. *)
Theorem no_use_after_release :
  forall sched : list Action, uses_held None (run sched init).2 = true.
Proof. intros sched. by apply run_uses_held. Qed.

(** *** The address a capture is constructed for *)

Lemma act_capture_urls (a : Action) (s : Sys) :
  Forall (fun u => u = rtsp_url s /\ truthy u = true) (capture_urls (act a s).2).
Proof.
  destruct a as [op|o].
  - destruct op; unfold_worker; crush; constructor.
  - open_state s o. destruct st_p.
    + unfold_worker. crush; constructor.
    + unfold_worker. crush; repeat (constructor; [done|]); constructor.
    + constructor.
    + constructor.
Qed.

(** *** Pacing *)

Lemma capture_urls_app (tr1 tr2 : list Event) :
  capture_urls (tr1 ++ tr2) = capture_urls tr1 ++ capture_urls tr2.
Proof. apply omap_app. Qed.

Lemma slept_app (tr1 tr2 : list Event) :
  slept (tr1 ++ tr2) = (slept tr1 + slept tr2)%Z.
Proof.
  unfold slept. rewrite omap_app.
  induction (omap _ tr1) as [|x l IH]; cbn; [done|]. rewrite IH. lia.
Qed.

(** X4. Every pass through the loop body that ends normally has slept for
    at least 30 ms and at most 1.5 s, and a pass that finds the address
    empty sleeps for exactly half a second: the loop never spins. *)
Theorem body_pass_sleeps :
  forall (s : Sys) (o : Oracle),
    pc s = InBody ->
    (pc (tick o s).1 = AtWhile ->
       (30 <= slept (tick o s).2 <= 1500)%Z) /\
    (truthy (rtsp_url s) = false ->
       tick o s =
         (set_pc AtWhile s,
          [EvAcquire; EvGet "rtsp_url" (VUrl (rtsp_url s)) true; EvUnlock;
           EvSleep 500])).
Proof.
  intros s o Hpc. open_state s o. cbn in Hpc. subst. split.
  - unfold_worker. crush; intros; try discriminate; cbn; lia.
  - cbn. intros Hu. unfold_worker. cbn. rewrite Hu. done.
Qed.

(** A pass on an opened capture that reads a frame, and a pass that finds
    the address empty. *)
Lemma body_pass_sleeps_witness :
  (30 <= slept (tick (answers true (Returns (true, Some 7%nat)) [] (Returns (true, [])))
                     (set_pc InBody camA_open)).2 <= 1500)%Z /\
  tick (answers true (Returns (true, Some 7)) [] (Returns (true, [])))
       (mkSys UNone true (UStr "camA") (Some 0) InBody 1) =
    (mkSys UNone true (UStr "camA") (Some 0) AtWhile 1,
     [EvAcquire; EvGet "rtsp_url" (VUrl UNone) true; EvUnlock; EvSleep 500]).
Proof.
  split.
  - apply (proj1 (body_pass_sleeps (set_pc InBody camA_open)
             (answers true (Returns (true, Some 7)) [] (Returns (true, [])))
             eq_refl)).
    reflexivity.
  - apply (proj2 (body_pass_sleeps (mkSys UNone true (UStr "camA") (Some 0) InBody 1)
             (answers true (Returns (true, Some 7)) [] (Returns (true, [])))
             eq_refl)).
    reflexivity.
Defined.

(** *** Reads and messages *)

Lemma act_counts (a : Action) (s : Sys) :
  length (emits (act a s).2) <= length (reads (act a s).2) /\
  length (reads (act a s).2) <= ticks [a].
Proof.
  destruct a as [op|o].
  - destruct op; unfold_worker; crush; cbn; lia.
  - open_state s o. destruct st_p.
    + unfold_worker. crush; cbn; lia.
    + unfold_worker. crush; cbn; lia.
    + cbn. lia.
    + cbn. lia.
Qed.

(** X5. In every execution the worker emits at most one message per frame
    read and reads at most one frame per step: it never emits without a read
    before, whatever the world answers. *)
Theorem emits_bounded_by_reads :
  forall (sched : list Action) (s : Sys),
    length (emits (run sched s).2) <= length (reads (run sched s).2) /\
    length (reads (run sched s).2) <= ticks sched.
Proof.
  induction sched as [|a sched IH]; intros s; [cbn; lia|].
  rewrite run_cons. cbn [snd]. rewrite emits_app, reads_app, !length_app.
  destruct (act_counts a s) as [H1 H2]. destruct (IH (act a s).1) as [H3 H4].
  assert (ticks (a :: sched) = ticks [a] + ticks sched) as -> by (by destruct a).
  lia.
Qed.

(** *** Read misses and reopening, over many iterations *)

Lemma iteration_head (s : Sys) (o : Oracle) :
  pc s = AtWhile -> running s = true ->
  tick o s = (set_pc InBody s, [EvGet "running" (VFlag true) false]).
Proof. intros Hpc Hr. destruct s; cbn in *; subst. done. Qed.

Lemma iteration_misses (s : Sys) (o : Oracle) (h : Handle) (u : string) :
  streaming s u h -> misses o ->
  run (iteration o) s =
    (s, [EvGet "running" (VFlag true) false;
         EvAcquire; EvGet "rtsp_url" (VUrl (UStr u)) true; EvUnlock;
         EvIsOpened h; EvRead h; EvSleep 500]).
Proof.
  intros (Hpc & Hr & Hurl & Htr & Hlast & Hcap) (Hio & rf & Hrd & Hrf).
  unfold iteration. rewrite !run_cons. cbn [act fst snd run].
  rewrite (iteration_head s o Hpc Hr). cbn [fst snd].
  open_state s o. cbn in *. subst. unfold_worker. cbn. rewrite Htr. cbn.
  destruct (decide (UStr u = UStr u)) as [_|]; [|done]. cbn.
  destruct rf as [[|] [f|]]; cbn; try done. by destruct (Hrf f).
Qed.

Lemma iteration_refuses (s : Sys) (o : Oracle) (h : Handle) (u : string) :
  streaming s u h -> refuses o ->
  run (iteration o) s =
    (set_cap (Some (next_handle s)) (bump_handle s),
     [EvGet "running" (VFlag true) false;
      EvAcquire; EvGet "rtsp_url" (VUrl (UStr u)) true; EvUnlock;
      EvIsOpened h; EvRelease h; EvCapture (UStr u) (next_handle s); EvSleep 1000]) /\
  streaming (set_cap (Some (next_handle s)) (bump_handle s)) u (next_handle s).
Proof.
  intros (Hpc & Hr & Hurl & Htr & Hlast & Hcap) (Hio & Hcr).
  split; [|by destruct s].
  unfold iteration. rewrite !run_cons. cbn [act fst snd run].
  rewrite (iteration_head s o Hpc Hr). cbn [fst snd].
  open_state s o. cbn in *. subst. unfold_worker. cbn. rewrite Htr. cbn.
  destruct (decide (UStr u = UStr u)) as [_|]; [|done]. cbn.
  destruct o_rr as [[]|]; done.
Qed.

(** X6. While the capture held reports opened, any number of iterations
    whose read gives no frame leave the worker exactly as it was: the same
    capture is read once per iteration, nothing is released, constructed or
    emitted, and each iteration sleeps half a second. *)
Theorem read_misses_never_reconnect :
  forall (s : Sys) (u : string) (h : Handle) (os : list Oracle),
    streaming s u h -> Forall misses os ->
    (run (concat (map iteration os)) s).1 = s /\
    reads (run (concat (map iteration os)) s).2 = repeat h (length os) /\
    releases (run (concat (map iteration os)) s).2 = [] /\
    captures (run (concat (map iteration os)) s).2 = [] /\
    emits (run (concat (map iteration os)) s).2 = [] /\
    slept (run (concat (map iteration os)) s).2 = (500 * Z.of_nat (length os))%Z.
Proof.
  intros s u h os Hs Hall.
  induction Hall as [|o os Ho Hall (IH1 & IH2 & IH3 & IH4 & IH5 & IH6)]; [done|].
  cbn [map concat]. rewrite run_app_log, run_app_state.
  rewrite (iteration_misses s o h u Hs Ho). cbn [fst snd].
  rewrite reads_app, releases_app, captures_app, emits_app, slept_app.
  rewrite IH1, IH2, IH3, IH4, IH5, IH6. cbn [length].
  repeat split; try done. change (slept _) with 500%Z at 1. lia.
Qed.

(** Capture 0 on camA gives no frame three times in a row. *)
Lemma read_misses_never_reconnect_witness :
  (run (concat (map iteration
     [answers true (Returns (false, None)) [] (Returns (true, []));
      answers true (Returns (true, None)) [] (Returns (true, []));
      answers true (Returns (false, Some 7)) [] (Returns (true, []))])) camA_open).1
    = camA_open /\
  reads (run (concat (map iteration
     [answers true (Returns (false, None)) [] (Returns (true, []));
      answers true (Returns (true, None)) [] (Returns (true, []));
      answers true (Returns (false, Some 7)) [] (Returns (true, []))])) camA_open).2
    = [0; 0; 0].
Proof.
  assert (streaming camA_open "camA" 0) as Hs by (by repeat split).
  assert (Forall misses
     [answers true (Returns (false, None)) [] (Returns (true, []));
      answers true (Returns (true, None)) [] (Returns (true, []));
      answers true (Returns (false, Some 7)) [] (Returns (true, []))]) as Hm.
  { repeat constructor; eexists; (split; [reflexivity|]); intros f; discriminate. }
  destruct (read_misses_never_reconnect camA_open "camA" 0 _ Hs Hm) as (H1 & H2 & _).
  split; [exact H1 | exact H2].
Defined.

(** X7. While the capture held reports not opened, every iteration calls
    release on it, constructs a new capture for the same address and sleeps
    one second, without reading; this goes on for as long as the source
    refuses, with no limit: one capture per iteration, each of them for the
    address that [state] holds. Once a capture reports opened and delivers
    a frame, that frame is emitted: the worker reaches the source whenever
    the source becomes available. *)
Theorem reopen_retries_until_opened :
  forall (s : Sys) (u : string) (h : Handle) (os : list Oracle),
    streaming s u h -> Forall refuses os ->
    (exists h' : Handle,
        streaming (run (concat (map iteration os)) s).1 u h' /\
        h :: captures (run (concat (map iteration os)) s).2 =
          releases (run (concat (map iteration os)) s).2 ++ [h']) /\
    captures (run (concat (map iteration os)) s).2 =
      seq (next_handle s) (length os) /\
    capture_urls (run (concat (map iteration os)) s).2 =
      repeat (UStr u) (length os) /\
    reads (run (concat (map iteration os)) s).2 = [] /\
    emits (run (concat (map iteration os)) s).2 = [] /\
    slept (run (concat (map iteration os)) s).2 = (1000 * Z.of_nat (length os))%Z /\
    (forall (o : Oracle) (item : list Box * list byte),
        delivers o item ->
        emits (run (concat (map iteration os) ++ iteration o) s).2 = [message item]).
Proof.
  intros s u h os Hs Hall. revert s h Hs.
  induction Hall as [|o os Ho Hall IH]; intros s h Hs.
  - cbn [map concat length]. repeat split; try done.
    + exists h. done.
    + intros o item Hd. cbn [app].
      destruct Hs as (Hpc & Hr & Hurl & Htr & Hlast & Hcap).
      by rewrite (iteration_delivers s o h u item).
  - destruct (iteration_refuses s o h u Hs Ho) as [Hrun Hs1].
    destruct (IH _ _ Hs1) as ((h' & Hs' & Hpair) & Hc & Hcu & Hrd & Hem & Hsl & Hdel).
    assert (next_handle (set_cap (Some (next_handle s)) (bump_handle s)) =
            S (next_handle s)) as Hn by (by destruct s).
    rewrite Hn in Hc.
    cbn [map concat length].
    rewrite run_app_log, run_app_state, Hrun. cbn [fst snd].
    rewrite captures_app, capture_urls_app, reads_app, emits_app, slept_app,
      releases_app.
    rewrite Hrd, Hem, Hsl, Hcu.
    split; [|split; [|split; [|split; [|split; [|split]]]]].
    + exists h'. split; [exact Hs'|].
      change (h :: next_handle s :: captures
                (run (concat (map iteration os))
                     (set_cap (Some (next_handle s)) (bump_handle s))).2 =
              h :: releases
                (run (concat (map iteration os))
                     (set_cap (Some (next_handle s)) (bump_handle s))).2 ++ [h']).
      f_equal. exact Hpair.
    + rewrite Hc. reflexivity.
    + reflexivity.
    + reflexivity.
    + reflexivity.
    + change (slept _) with 1000%Z at 1. lia.
    + intros o' item Hd. rewrite <- app_assoc, run_app_log, Hrun. cbn [fst snd].
      rewrite emits_app. by rewrite (Hdel o' item Hd).
Qed.

(** Capture 0 on camA reports not opened twice; the third capture delivers
    a frame with one detection. *)
Lemma reopen_retries_until_opened_witness :
  captures (run (concat (map iteration
     [answers false (Returns (false, None)) [] (Returns (true, []));
      answers false (Returns (false, None)) [] (Returns (true, []))])) camA_open).2
    = [1; 2] /\
  capture_urls (run (concat (map iteration
     [answers false (Returns (false, None)) [] (Returns (true, []));
      answers false (Returns (false, None)) [] (Returns (true, []))])) camA_open).2
    = [UStr "camA"; UStr "camA"] /\
  emits (run (concat (map iteration
     [answers false (Returns (false, None)) [] (Returns (true, []));
      answers false (Returns (false, None)) [] (Returns (true, []))]) ++
     iteration (answers true (Returns (true, Some 7)) [(1, 2, 3, 4)%Z]
                        (Returns (true, [xff]%byte)))) camA_open).2
    = [("/w==", 1)].
Proof.
  assert (streaming camA_open "camA" 0) as Hs by (by repeat split).
  assert (Forall refuses
     [answers false (Returns (false, None)) [] (Returns (true, []));
      answers false (Returns (false, None)) [] (Returns (true, []))]) as Hr.
  { by repeat constructor. }
  destruct (reopen_retries_until_opened camA_open "camA" 0 _ Hs Hr)
    as (_ & H1 & H3 & _ & _ & _ & H2).
  split; [exact H1|]. split; [exact H3|].
  apply (H2 (answers true (Returns (true, Some 7)) [(1, 2, 3, 4)%Z]
                     (Returns (true, [xff]%byte)))
            ([(1, 2, 3, 4)%Z], [xff]%byte)).
  repeat split; try reflexivity; eexists; reflexivity.
Defined.

(** *** After an uncaught exception *)

Lemma run_inactive (sched : list Action) (s : Sys) :
  active (pc s) = false ->
  pc (run sched s).1 = pc s /\ cap (run sched s).1 = cap s /\
  releases (run sched s).2 = [] /\ captures (run sched s).2 = [] /\
  reads (run sched s).2 = [] /\ emits (run sched s).2 = [].
Proof.
  revert s. induction sched as [|a sched IH]; intros s Hpc; [done|].
  rewrite run_cons. cbn [fst snd].
  rewrite releases_app, captures_app, reads_app, emits_app.
  destruct a as [op|o].
  - destruct (control_locals op s) as (Hc & _ & Hp & _).
    destruct (control_quiet op s) as (-> & -> & -> & ->).
    destruct (IH (act (Ctl op) s).1) as (H1 & H2 & H3 & H4 & H5 & H6);
      [by rewrite Hp|].
    rewrite H1, H2, H3, H4, H5, H6, Hp, Hc. done.
  - cbn [act]. rewrite tick_inactive by done. by apply IH.
Qed.

Lemma run_last_write (sched : list Action) (s : Sys) :
  last_write (rtsp_url s) (run sched s).2 = rtsp_url (run sched s).1.
Proof.
  revert s. induction sched as [|a sched IH]; intros s; [done|].
  rewrite run_cons. cbn [fst snd].
  destruct (act_access a s) as (_ & _ & _ & Ha).
  rewrite <- IH, <- Ha. clear.
  generalize (rtsp_url s). induction (act a s).2 as [|e tr IHtr]; intros cur; [done|].
  cbn. destruct e as [| |k v g|k v g| | | | | | | |]; try apply IHtr.
  destruct v; [|apply IHtr]. destruct (String.eqb k "rtsp_url"); apply IHtr.
Qed.

(** X8. An exception raised by [cap.read()] ends the worker for good with
    the capture still held and never released. From then on, whatever is
    scheduled, the worker constructs, reads, releases and emits nothing,
    while the routes go on answering: [state['rtsp_url']] keeps following
    the requests, but no address stored after the exception is ever opened. *)
Theorem read_exception_ends_streaming :
  forall (s : Sys) (o : Oracle) (h : Handle) (u e : string),
    pc s = InBody -> rtsp_url s = UStr u -> truthy (UStr u) = true ->
    last_url s = UStr u -> cap s = Some h ->
    is_opened o = Returns true -> read o = Raises e ->
    tick o s =
      (set_pc Crashed s,
       [EvAcquire; EvGet "rtsp_url" (VUrl (UStr u)) true; EvUnlock;
        EvIsOpened h; EvRead h]) /\
    forall sched : list Action,
      pc (run sched (tick o s).1).1 = Crashed /\
      cap (run sched (tick o s).1).1 = Some h /\
      releases (run sched (tick o s).1).2 = [] /\
      captures (run sched (tick o s).1).2 = [] /\
      reads (run sched (tick o s).1).2 = [] /\
      emits (run sched (tick o s).1).2 = [] /\
      rtsp_url (run sched (tick o s).1).1 =
        last_write (UStr u) (run sched (tick o s).1).2.
Proof.
  intros s o h u e Hpc Hurl Htr Hlast Hcap Hio Hrd.
  assert (tick o s =
      (set_pc Crashed s,
       [EvAcquire; EvGet "rtsp_url" (VUrl (UStr u)) true; EvUnlock;
        EvIsOpened h; EvRead h])) as Ht.
  { open_state s o. cbn in *. subst. unfold_worker. cbn. rewrite Htr. cbn.
    destruct (decide (UStr u = UStr u)) as [_|]; [|done]. done. }
  split; [exact Ht|]. intros sched. rewrite Ht. cbn [fst].
  destruct (run_inactive sched (set_pc Crashed s)) as (H1 & H2 & H3 & H4 & H5 & H6);
    [done|].
  rewrite H1, H2, H3, H4, H5, H6.
  pose proof (run_last_write sched (set_pc Crashed s)) as Hw.
  assert (rtsp_url (set_pc Crashed s) = UStr u) as Hu by (by destruct s).
  rewrite Hu in Hw. rewrite Hw.
  repeat split; by destruct s.
Qed.

(** Capture 0 on camA: the read raises; afterwards camB is requested and
    the worker is scheduled for three more iterations. *)
Lemma read_exception_ends_streaming_witness :
  tick (answers true (Raises "cv2.error") [] (Returns (true, [])))
       (set_pc InBody camA_open) =
    (mkSys (UStr "camA") true (UStr "camA") (Some 0) Crashed 1,
     [EvAcquire; EvGet "rtsp_url" (VUrl (UStr "camA")) true; EvUnlock;
      EvIsOpened 0; EvRead 0]) /\
  captures (run (Ctl (SetStream (DObject {["rtsp_url" := UStr "camB"]})) :: three_passes)
     (tick (answers true (Raises "cv2.error") [] (Returns (true, [])))
           (set_pc InBody camA_open)).1).2 = [].
Proof.
  destruct (read_exception_ends_streaming (set_pc InBody camA_open)
              (answers true (Raises "cv2.error") [] (Returns (true, [])))
              0 "camA" "cv2.error" eq_refl eq_refl eq_refl eq_refl eq_refl
              eq_refl eq_refl) as [H1 H2].
  split; [exact H1|].
  apply (H2 (Ctl (SetStream (DObject {["rtsp_url" := UStr "camB"]})) :: three_passes)).
Defined.

(** *** Requests served while a step is under way *)

Lemma locked_app (tr : list Event) : (locked tr).1 ++ (locked tr).2 = tr.
Proof.
  induction tr as [|e tr IH]; [done|].
  destruct e; cbn; try done; destruct (locked tr); cbn in *; by rewrite IH.
Qed.

Lemma first_move_app (tr : list Event) :
  (first_move tr).1 ++ (first_move tr).2 = tr.
Proof.
  destruct tr as [|e tr]; [done|].
  destruct e; cbn; try done.
  pose proof (locked_app tr) as H. destruct (locked tr); cbn in *. by rewrite H.
Qed.

Lemma fine_run_cons (x : FineAction) (a : list FineAction) (f : Fine) :
  fine_run (x :: a) f =
    ((fine_run a (fine_act x f).1).1,
     (fine_act x f).2 ++ (fine_run a (fine_act x f).1).2).
Proof.
  cbn. destruct (fine_act x f) as [f1 e1]. cbn. by destruct (fine_run a f1).
Qed.

Lemma fine_run_app (a b : list FineAction) (f : Fine) :
  fine_run (a ++ b) f =
    ((fine_run b (fine_run a f).1).1,
     (fine_run a f).2 ++ (fine_run b (fine_run a f).1).2).
Proof.
  revert f. induction a as [|x a IH]; intros f.
  - cbn. by destruct (fine_run b f).
  - rewrite <- app_comm_cons, !fine_run_cons, IH. cbn [fst snd].
    by rewrite app_assoc.
Qed.

(** The step under way runs to its end. *)
Lemma fine_run_drain (o : Oracle) (s : Sys) (p : list Event) :
  fine_run (repeat (Work o) (length p)) (mkFine s p) = (mkFine s [], p).
Proof.
  induction p as [|e p IH]; [done|].
  cbn [length repeat]. rewrite fine_run_cons. cbn. by rewrite IH.
Qed.

Lemma fine_run_whole_step (o : Oracle) (s : Sys) :
  fine_run (whole_step o s) (at_rest s) = (at_rest (tick o s).1, (tick o s).2).
Proof.
  unfold whole_step. cbn [repeat]. rewrite fine_run_cons.
  unfold fine_act, at_rest. cbn [pending sys].
  destruct (tick o s) as [s1 tr]. cbn [fst snd].
  rewrite fine_run_drain. cbn [fst snd]. by rewrite first_move_app.
Qed.

(** Every execution of [run] is one of [fine_run]: the one in which every
    request is served between two steps of the worker. *)
Lemma run_is_fine_run (sched : list Action) (s : Sys) :
  fine_run (between_steps sched s) (at_rest s) =
    (at_rest (run sched s).1, (run sched s).2).
Proof.
  revert s. induction sched as [|a sched IH]; intros s; [done|].
  rewrite run_cons. destruct a as [op|o]; cbn [between_steps].
  - rewrite fine_run_cons. unfold fine_act. cbn [sys at_rest pending].
    destruct (act (Ctl op) s) as [s1 e1] eqn:E. cbn [fst snd].
    change (mkFine s1 []) with (at_rest s1). by rewrite IH.
  - rewrite fine_run_app, fine_run_whole_step. cbn [fst snd act]. by rewrite IH.
Qed.

(** After its first move a step touches neither [state] nor the lock. *)
Lemma tick_tail_local (o : Oracle) (s : Sys) :
  Forall (fun e => is_access e = false) (first_move (tick o s).2).2.
Proof.
  open_state s o. destruct st_p.
  - unfold_worker. crush; repeat constructor.
  - unfold_worker. crush; repeat constructor.
  - constructor.
  - constructor.
Qed.

Lemma calls_app (tr1 tr2 : list Event) : calls (tr1 ++ tr2) = calls tr1 ++ calls tr2.
Proof.
  induction tr1 as [|e tr1 IH]; [done|]. cbn. rewrite IH. by destruct (is_call e).
Qed.

Lemma emits_calls (tr : list Event) : emits (calls tr) = emits tr.
Proof.
  induction tr as [|e tr IH]; [done|].
  destruct e; cbn; first [exact IH | f_equal; exact IH].
Qed.

Lemma releases_calls (tr : list Event) : releases (calls tr) = releases tr.
Proof.
  induction tr as [|e tr IH]; [done|].
  destruct e; cbn; first [exact IH | f_equal; exact IH].
Qed.

Lemma captures_calls (tr : list Event) : captures (calls tr) = captures tr.
Proof.
  induction tr as [|e tr IH]; [done|].
  destruct e; cbn; first [exact IH | f_equal; exact IH].
Qed.

Lemma reads_calls (tr : list Event) : reads (calls tr) = reads tr.
Proof.
  induction tr as [|e tr IH]; [done|].
  destruct e; cbn; first [exact IH | f_equal; exact IH].
Qed.

(** A step on an empty address makes no call at all. *)
Lemma act_idle_calls (a : Action) (s : Sys) :
  keeps_empty a = true -> truthy (rtsp_url s) = false ->
  running s = true -> active (pc s) = true ->
  calls (act a s).2 = [].
Proof.
  intros Hk Hu Hr Ha. destruct a as [op|o].
  - destruct op as [data| |]; cbn in Hk.
    + apply negb_true_iff in Hk. by rewrite (act_not_accepted _ _ Hk).
    + by destruct s.
    + by destruct s.
  - open_state s o. cbn in *. subst. destruct st_p; try discriminate.
    + unfold_worker. cbn. done.
    + unfold_worker. cbn. rewrite Hu. cbn. done.
Qed.

(** While the address stays empty, the calls made and the calls still to
    come are those of the step that was under way, and of no other. *)
Lemma fine_run_idle (sched : list FineAction) (f : Fine) :
  forallb fine_keeps_empty sched = true -> truthy (rtsp_url (sys f)) = false ->
  running (sys f) = true -> active (pc (sys f)) = true ->
  truthy (rtsp_url (sys (fine_run sched f).1)) = false /\
  active (pc (sys (fine_run sched f).1)) = true /\
  cap (sys (fine_run sched f).1) = cap (sys f) /\
  last_url (sys (fine_run sched f).1) = last_url (sys f) /\
  calls (fine_run sched f).2 ++ calls (pending (fine_run sched f).1) =
    calls (pending f).
Proof.
  revert f. induction sched as [|a sched IH]; intros f Hk Hu Hr Ha; [done|].
  cbn in Hk. apply andb_true_iff in Hk as [Hk1 Hk2].
  rewrite fine_run_cons. cbn [fst snd]. rewrite calls_app.
  destruct f as [s p]. cbn [sys pending] in *.
  destruct a as [op|o]; cbn [fine_keeps_empty] in Hk1.
  - pose proof (act_idle _ s Hk1 Hu Hr Ha) as (Hu1 & Hr1 & Ha1 & Hc1 & Hl1 & _).
    pose proof (act_idle_calls _ s Hk1 Hu Hr Ha) as Hq.
    unfold fine_act. cbn [sys pending].
    destruct (act (Ctl op) s) as [s1 e1]. cbn [fst snd] in *.
    destruct (IH (mkFine s1 p) Hk2 Hu1 Hr1 Ha1) as (? & ? & Hc2 & Hl2 & Hq2).
    cbn [sys pending] in *. rewrite Hq, Hc2, Hl2, Hc1, Hl1. done.
  - destruct p as [|e p].
    + pose proof (act_idle (Tick o) s eq_refl Hu Hr Ha)
        as (Hu1 & Hr1 & Ha1 & Hc1 & Hl1 & _).
      pose proof (act_idle_calls (Tick o) s eq_refl Hu Hr Ha) as Hq.
      unfold fine_act. cbn [sys pending act] in *.
      destruct (tick o s) as [s1 tr]. cbn [fst snd] in *.
      rewrite <- (first_move_app tr), calls_app in Hq.
      apply app_eq_nil in Hq as [Hq1 Hq2].
      destruct (IH (mkFine s1 (first_move tr).2) Hk2 Hu1 Hr1 Ha1)
        as (? & ? & Hc2 & Hl2 & Hq3).
      cbn [sys pending] in *. rewrite Hq1, Hc2, Hl2, Hc1, Hl1. cbn [app].
      rewrite Hq3, Hq2. done.
    + unfold fine_act. cbn [sys pending fst snd].
      destruct (IH (mkFine s p) Hk2 Hu Hr Ha) as (? & ? & Hc2 & Hl2 & Hq3).
      cbn [sys pending] in *. rewrite <- app_assoc, Hq3.
      change (e :: p) with ([e] ++ p). by rewrite calls_app.
Qed.

(** What is pending is the rest of one step. *)
Lemma fine_run_in_flight (sched : list FineAction) (f : Fine) :
  (exists o s, pending f `suffix_of` (tick o s).2) ->
  exists o s, pending (fine_run sched f).1 `suffix_of` (tick o s).2.
Proof.
  revert f. induction sched as [|a sched IH]; intros f H; [done|].
  rewrite fine_run_cons. cbn [fst]. apply IH.
  destruct f as [s p]. destruct H as (o0 & s0 & H). cbn [pending] in H.
  destruct a as [op|o]; unfold fine_act; cbn [sys pending].
  - destruct (act (Ctl op) s). cbn. by exists o0, s0.
  - destruct p as [|e p].
    + exists o, s. destruct (tick o s) as [s1 tr]. cbn.
      exists (first_move tr).1. by rewrite first_move_app.
    + cbn. exists o0, s0. etrans; [|exact H]. by exists [e].
Qed.

Lemma pending_one_frame (pre : list FineAction) (s0 : Sys) :
  length (emits (pending (fine_run pre (at_rest s0)).1)) <= 1.
Proof.
  destruct (fine_run_in_flight pre (at_rest s0)) as (o & s & [k H]).
  { exists (answers true (Returns (false, None)) [] (Returns (true, []))), s0.
    apply suffix_nil. }
  pose proof (act_counts (Tick o) s) as [H1 H2]. cbn [act ticks] in *.
  assert (length (emits (tick o s).2) <= 1) as H3 by lia.
  rewrite H, emits_app, length_app in H3. lia.
Qed.

Lemma omap_prefix_of {A B : Type} (g : A -> option B) (l1 l2 l : list A) :
  l1 ++ l2 = l -> omap g l1 `prefix_of` omap g l.
Proof. intros <-. exists (omap g l2). apply omap_app. Qed.

(** *** stop_stream while a step is under way *)

(** C1, as the code has it. [stop_stream] is served at any moment of an
    execution, also while a step of the worker is under way, and no
    [set_stream] request is accepted afterwards. Then every call into cv2
    and Socket.IO made after the stop belongs to the step that was under
    way when it was served: the worker ends that step, which may still
    publish the one frame it is working on, and from its next poll on it
    emits nothing and makes no call on the capture. It does not release the
    capture it holds: [cap] and [last_url] stay as that step leaves them.
    When no step was under way, nothing at all is emitted, released,
    constructed or read. *)
Theorem stop_stream_idles_holding_capture :
  forall (s0 : Sys) (pre sched : list FineAction) (h : Handle),
    let f := (fine_run pre (at_rest s0)).1 in
    let f' := (fine_run (Serve StopStream :: sched) f).1 in
    let tr := (fine_run (Serve StopStream :: sched) f).2 in
    cap (sys f) = Some h -> running (sys f) = true -> active (pc (sys f)) = true ->
    forallb fine_keeps_empty sched = true ->
    truthy (rtsp_url (sys f')) = false /\
    cap (sys f') = Some h /\
    last_url (sys f') = last_url (sys f) /\
    active (pc (sys f')) = true /\
    calls tr ++ calls (pending f') = calls (pending f) /\
    emits tr `prefix_of` emits (pending f) /\
    length (emits tr) <= 1 /\
    releases tr `prefix_of` releases (pending f) /\
    captures tr `prefix_of` captures (pending f) /\
    reads tr `prefix_of` reads (pending f) /\
    (pending f = [] ->
     emits tr = [] /\ releases tr = [] /\ captures tr = [] /\ reads tr = []).
Proof.
  intros s0 pre sched h f f' tr Hc Hr Ha Hk.
  pose proof (pending_one_frame pre s0) as Hone. fold f in Hone.
  subst f' tr. rewrite fine_run_cons. cbn [fst snd].
  set (f1 := (fine_act (Serve StopStream) f).1).
  assert ((fine_act (Serve StopStream) f).2 =
          [EvAcquire; EvSet "rtsp_url" (VUrl UNone) true; EvUnlock]) as -> by done.
  assert (truthy (rtsp_url (sys f1)) = false) as Hu1 by done.
  assert (running (sys f1) = true) as Hr1.
  { subst f1. destruct f as [[] ?]. done. }
  assert (active (pc (sys f1)) = true) as Ha1.
  { subst f1. destruct f as [[] ?]. done. }
  assert (cap (sys f1) = cap (sys f)) as Hc1.
  { subst f1. destruct f as [[] ?]. done. }
  assert (last_url (sys f1) = last_url (sys f)) as Hl1.
  { subst f1. destruct f as [[] ?]. done. }
  assert (pending f1 = pending f) as Hp1.
  { subst f1. destruct f as [[] ?]. done. }
  destruct (fine_run_idle sched f1 Hk Hu1 Hr1 Ha1) as (Hu2 & Ha2 & Hc2 & Hl2 & Hq).
  rewrite Hp1 in Hq. rewrite Hc2, Hl2, Hc1, Hl1.
  set (tr := (fine_run sched f1).2) in *.
  set (p' := pending (fine_run sched f1).1) in *.
  assert (emits tr ++ emits p' = emits (pending f)) as He.
  { by rewrite <- emits_app, <- emits_calls, calls_app, Hq, emits_calls. }
  assert (releases tr ++ releases p' = releases (pending f)) as Hrl.
  { by rewrite <- releases_app, <- releases_calls, calls_app, Hq, releases_calls. }
  assert (captures tr ++ captures p' = captures (pending f)) as Hcp.
  { by rewrite <- captures_app, <- captures_calls, calls_app, Hq, captures_calls. }
  assert (reads tr ++ reads p' = reads (pending f)) as Hrd.
  { by rewrite <- reads_app, <- reads_calls, calls_app, Hq, reads_calls. }
  change (calls ([EvAcquire; EvSet "rtsp_url" (VUrl UNone) true; EvUnlock] ++ tr))
    with (calls tr).
  change (emits ([EvAcquire; EvSet "rtsp_url" (VUrl UNone) true; EvUnlock] ++ tr))
    with (emits tr).
  change (releases ([EvAcquire; EvSet "rtsp_url" (VUrl UNone) true; EvUnlock] ++ tr))
    with (releases tr).
  change (captures ([EvAcquire; EvSet "rtsp_url" (VUrl UNone) true; EvUnlock] ++ tr))
    with (captures tr).
  change (reads ([EvAcquire; EvSet "rtsp_url" (VUrl UNone) true; EvUnlock] ++ tr))
    with (reads tr).
  split_and!; try done.
  - by exists (emits p').
  - rewrite <- He, length_app in Hone. lia.
  - by exists (releases p').
  - by exists (captures p').
  - by exists (reads p').
  - intros Hp. rewrite Hp in He, Hrl, Hcp, Hrd.
    apply app_eq_nil in He as [? _]. apply app_eq_nil in Hrl as [? _].
    apply app_eq_nil in Hcp as [? _]. apply app_eq_nil in Hrd as [? _]. done.
Qed.

(** The worker holds capture 0 on camA and has polled the address when
    [stop_stream] is served: the pass under way reads its frame and emits
    it, and the two passes after it only sleep; capture 0 stays held. *)
Lemma stop_stream_idles_holding_capture_witness :
  let o := answers true (Returns (true, Some 7)) [] (Returns (true, [xff]%byte)) in
  let f := (fine_run [Work o; Work o] (at_rest camA_open)).1 in
  let f' := (fine_run (Serve StopStream :: repeat (Work o) 12) f).1 in
  let tr := (fine_run (Serve StopStream :: repeat (Work o) 12) f).2 in
  (pending f =
     [EvIsOpened 0; EvRead 0; EvDetect []; EvImencode [xff]%byte;
      EvEmit "/w==" 0; EvSleep 30] /\
   emits tr = [("/w==", 0)] /\ reads tr = [0] /\ pending f' = []) /\
  truthy (rtsp_url (sys f')) = false /\
  cap (sys f') = Some 0 /\
  last_url (sys f') = UStr "camA" /\
  active (pc (sys f')) = true /\
  calls tr ++ calls (pending f') = calls (pending f) /\
  emits tr `prefix_of` emits (pending f) /\
  length (emits tr) <= 1 /\
  releases tr `prefix_of` releases (pending f) /\
  captures tr `prefix_of` captures (pending f) /\
  reads tr `prefix_of` reads (pending f) /\
  (pending f = [] ->
   emits tr = [] /\ releases tr = [] /\ captures tr = [] /\ reads tr = []).
Proof.
  intros o f f' tr. split; [by vm_compute|].
  apply (stop_stream_idles_holding_capture camA_open [Work o; Work o]
           (repeat (Work o) 12) 0); reflexivity.
Defined.

(** A frame in flight is published after the stop. The worker holds
    capture 0 on camA and polls the address; [stop_stream] is served before
    the pass has read its frame; the pass goes on and emits the frame after
    the address was cleared. The two passes that follow only sleep. *)
Example stop_stream_frame_in_flight :
  fine_run stop_inside_pass (at_rest camA_open) =
    (at_rest (mkSys UNone true (UStr "camA") (Some 0) AtWhile 1),
     [EvGet "running" (VFlag true) false;
      EvAcquire; EvGet "rtsp_url" (VUrl (UStr "camA")) true; EvUnlock;
      EvAcquire; EvSet "rtsp_url" (VUrl UNone) true; EvUnlock;
      EvIsOpened 0; EvRead 0; EvDetect []; EvImencode [xff]%byte;
      EvEmit "/w==" 0; EvSleep 30;
      EvGet "running" (VFlag true) false;
      EvAcquire; EvGet "rtsp_url" (VUrl UNone) true; EvUnlock; EvSleep 500;
      EvGet "running" (VFlag true) false;
      EvAcquire; EvGet "rtsp_url" (VUrl UNone) true; EvUnlock; EvSleep 500]).
Proof. reflexivity. Qed.

(** *** The address a capture is constructed for, with requests inside a pass *)

Lemma fine_act_no_write (a : FineAction) (f : Fine) :
  fine_no_write a = true -> rtsp_url (sys (fine_act a f).1) = rtsp_url (sys f).
Proof.
  destruct f as [s p]. destruct a as [op|o]; cbn [fine_no_write]; intros H.
  - pose proof (act_no_write (Ctl op) s H) as E. unfold fine_act. cbn [sys pending].
    by destruct (act (Ctl op) s).
  - unfold fine_act. cbn [sys pending]. destruct p; [|done].
    pose proof (tick_shared o s) as [E _]. by destruct (tick o s).
Qed.

(** X3. The worker constructs a capture only for the non-empty address it
    polled in the same pass, and it polls once per pass, so a request can
    be served between the poll and the construction. As long as the address
    is not written again, the captures constructed are first those that the
    step under way had still to construct, for the address it polled, and
    then only captures for the address that [state] holds. When no step is
    under way, every capture is for the address that [state] holds. *)
Theorem captures_are_for_the_current_address :
  forall (f : Fine) (sched : list FineAction),
    forallb fine_no_write sched = true ->
    (exists old new : list Url,
        capture_urls (fine_run sched f).2 = old ++ new /\
        old `prefix_of` capture_urls (pending f) /\
        Forall (fun u => u = rtsp_url (sys f) /\ truthy u = true) new) /\
    (pending f = [] ->
     Forall (fun u => u = rtsp_url (sys f) /\ truthy u = true)
            (capture_urls (fine_run sched f).2)).
Proof.
  intros f sched H.
  assert (exists old new : list Url,
             capture_urls (fine_run sched f).2 = old ++ new /\
             old `prefix_of` capture_urls (pending f) /\
             Forall (fun u => u = rtsp_url (sys f) /\ truthy u = true) new) as Hmain.
  { revert f. induction sched as [|a sched IH]; intros f.
    - exists [], []. split_and!; [done | apply prefix_nil | constructor].
    - cbn in H. apply andb_true_iff in H as [Ha H]. specialize (IH H).
      rewrite fine_run_cons. cbn [snd]. rewrite capture_urls_app.
      pose proof (fine_act_no_write a f Ha) as Hu.
      destruct (IH (fine_act a f).1) as (old & new & E & [k Hk] & Hnew).
      rewrite Hu in Hnew. rewrite E. clear E IH.
      destruct f as [s p]. destruct a as [op|o]; unfold fine_act in *;
        cbn [sys pending] in *.
      + assert (capture_urls (act (Ctl op) s).2 = []) as Hq.
        { destruct op; unfold_worker; crush; done. }
        destruct (act (Ctl op) s) as [s1 e1]. cbn [fst snd pending] in *.
        rewrite Hq. exists old, new. split_and!; [done | by exists k | done].
      + destruct p as [|e p].
        * pose proof (act_capture_urls (Tick o) s) as Hall. cbn [act] in Hall.
          destruct (tick o s) as [s1 tr]. cbn [fst snd pending] in *.
          rewrite <- (first_move_app tr), capture_urls_app, Hk in Hall.
          apply Forall_app in Hall as [H1 H2]. apply Forall_app in H2 as [H2 _].
          exists [], (capture_urls (first_move tr).1 ++ old ++ new).
          split_and!; [done | apply prefix_nil |].
          apply Forall_app. split; [done|]. apply Forall_app. by split.
        * cbn [fst snd pending] in *.
          exists (capture_urls [e] ++ old), new.
          split_and!; [by rewrite app_assoc | | done].
          exists k. change (e :: p) with ([e] ++ p).
          by rewrite capture_urls_app, Hk, app_assoc. }
  split; [exact Hmain|].
  intros Hp. destruct Hmain as (old & new & E & [k Hk] & Hnew).
  rewrite Hp in Hk. symmetry in Hk. apply app_eq_nil in Hk as [-> _].
  by rewrite E.
Qed.

(** Two addresses are set in a row from the start of the process, then the
    worker runs three iterations, one of them with a capture that reports
    not opened: every capture is for the second address. *)
Lemma captures_are_for_the_current_address_witness :
  (fine_run [Serve (SetStream (DObject {["rtsp_url" := UStr "camB"]}));
             Serve (SetStream camA)] (at_rest init)).1 =
    at_rest (mkSys (UStr "camA") true UNone None AtWhile 0) /\
  capture_urls
    (fine_run (between_steps three_passes (mkSys (UStr "camA") true UNone None AtWhile 0))
              (at_rest (mkSys (UStr "camA") true UNone None AtWhile 0))).2 =
    [UStr "camA"; UStr "camA"] /\
  Forall (fun u => u = UStr "camA" /\ truthy u = true)
    (capture_urls
       (fine_run (between_steps three_passes (mkSys (UStr "camA") true UNone None AtWhile 0))
                 (at_rest (mkSys (UStr "camA") true UNone None AtWhile 0))).2).
Proof.
  split; [reflexivity|]. split; [by vm_compute|].
  apply (proj2 (captures_are_for_the_current_address
                  (at_rest (mkSys (UStr "camA") true UNone None AtWhile 0))
                  (between_steps three_passes
                     (mkSys (UStr "camA") true UNone None AtWhile 0))
                  eq_refl) eq_refl).
Defined.

(** A capture for the address polled before the last write. The worker
    polls camA; camB is set before the pass constructs its capture; the
    pass goes on, opens camA and emits a frame of it. The next pass sees
    camB, releases that capture and opens camB. *)
Example capture_for_polled_address_after_write :
  capture_urls
    (fine_run set_inside_pass (at_rest (mkSys (UStr "camA") true UNone None AtWhile 0))).2 =
    [UStr "camA"; UStr "camB"] /\
  (fine_run set_inside_pass (at_rest (mkSys (UStr "camA") true UNone None AtWhile 0))).2 =
    [EvGet "running" (VFlag true) false;
     EvAcquire; EvGet "rtsp_url" (VUrl (UStr "camA")) true; EvUnlock;
     EvAcquire; EvSet "rtsp_url" (VUrl (UStr "camB")) true; EvUnlock;
     EvCapture (UStr "camA") 0; EvSleep 500; EvIsOpened 0; EvRead 0;
     EvDetect []; EvImencode [xff]%byte; EvEmit "/w==" 0; EvSleep 30;
     EvGet "running" (VFlag true) false;
     EvAcquire; EvGet "rtsp_url" (VUrl (UStr "camB")) true; EvUnlock;
     EvRelease 0; EvCapture (UStr "camB") 1].
Proof. split; reflexivity. Qed.

End ServerFacts.

(* ------------------------------------------------------------------------- *)
(** ** Properties of the query builders *)
(* ------------------------------------------------------------------------- *)

Module DbProviderFacts.
Import DbProvider.

(** *** The templates of the builders *)

Lemma format_condition (k : string) :
  format "{} = %s" [Identifier k] [] = Composed [Identifier k; SQL " = %s"].
Proof. reflexivity. Qed.

Lemma format_select (cols table : Composable) :
  format "SELECT {cols} FROM {table}" [] [("cols", cols); ("table", table)] =
  Composed [SQL "SELECT "; cols; SQL " FROM "; table].
Proof. reflexivity. Qed.

Lemma format_insert (table cols vals : Composable) :
  format "INSERT INTO {table} ({cols}) VALUES ({vals})" []
    [("table", table); ("cols", cols); ("vals", vals)] =
  Composed [SQL "INSERT INTO "; table; SQL " ("; cols; SQL ") VALUES ("; vals; SQL ")"].
Proof. reflexivity. Qed.

Lemma format_delete (table : Composable) :
  format "DELETE FROM {table}" [] [("table", table)] =
  Composed [SQL "DELETE FROM "; table].
Proof. reflexivity. Qed.

Lemma format_delete_limited (table : Composable) :
  format "DELETE FROM {table} WHERE ctid IN (SELECT ctid FROM {table}" []
    [("table", table)] =
  Composed [SQL "DELETE FROM "; table;
            SQL " WHERE ctid IN (SELECT ctid FROM "; table].
Proof. reflexivity. Qed.

(** *** Leaves of compositions *)

Lemma atoms_Composed (parts : list Composable) :
  atoms (Composed parts) = concat (map atoms parts).
Proof.
  induction parts as [|x parts IH]; [done|].
  cbn in *. by rewrite IH.
Qed.

Lemma atoms_add (a b : Composable) : atoms (add a b) = atoms a ++ atoms b.
Proof.
  destruct a, b; unfold add; rewrite ?atoms_Composed, ?map_app, ?concat_app;
    cbn; rewrite ?app_nil_r; try done.
Qed.

Lemma join_Forall (P : Atom -> Prop) (joiner : string) (seq : list Composable) :
  P (ASql joiner) -> Forall (fun x => Forall P (atoms x)) seq ->
  Forall P (atoms (join joiner seq)).
Proof.
  intros Hj Hall. unfold join. rewrite atoms_Composed.
  induction Hall as [|x seq Hx Hall IH]; [done|].
  destruct seq as [|y seq]; cbn [join_parts map concat] in *.
  - by rewrite app_nil_r.
  - apply Forall_app. split; [done|]. by constructor.
Qed.

Lemma join_omap {B : Type} (f : Atom -> option B) (joiner : string)
    (seq : list Composable) :
  f (ASql joiner) = None ->
  omap f (atoms (join joiner seq)) = concat (map (fun x => omap f (atoms x)) seq).
Proof.
  intros Hj. unfold join. rewrite atoms_Composed.
  induction seq as [|x seq IH]; [done|].
  destruct seq as [|y seq]; cbn [join_parts map concat] in *.
  - by rewrite !app_nil_r.
  - rewrite omap_app. f_equal.
    change (atoms (SQL joiner) ++ ?r) with (ASql joiner :: r).
    cbn [omap list_omap]. rewrite Hj. exact IH.
Qed.

Lemma In_literals (t : string) :
  existsb (String.eqb t) literals = true -> In t literals.
Proof.
  intros H. apply existsb_exists in H as (x & Hin & Heq).
  apply String.eqb_eq in Heq. by subst.
Qed.

Lemma safe_literal (raw : option string) (t : string) :
  existsb (String.eqb t) literals = true -> safe_atom raw (ASql t).
Proof. intros H. left. by apply In_literals. Qed.

(** A comma-separated list of quoted names. *)
Lemma names_safe (raw : option string) (names : list string) :
  Forall (safe_atom raw) (atoms (join ", " (map Identifier names))).
Proof.
  apply join_Forall; [by apply safe_literal|].
  apply Forall_map, Forall_forall. intros x _. by repeat constructor.
Qed.

Lemma names_identifiers (names : list string) :
  identifiers (join ", " (map Identifier names)) = names.
Proof.
  unfold identifiers. rewrite join_omap by done.
  induction names as [|x names IH]; [done|]. cbn in *. by rewrite IH.
Qed.

(** The conjunction of [{} = %s] conditions of a mapping. *)
Lemma conditions_safe (raw : option string) (w : list (string * PyVal)) :
  Forall (safe_atom raw) (atoms (join " AND " (where_parts w))).
Proof.
  apply join_Forall; [by apply safe_literal|].
  apply Forall_map, Forall_forall. intros x _.
  rewrite format_condition. cbn.
  constructor; [exact I|]. constructor; [by apply safe_literal | constructor].
Qed.

Lemma conditions_identifiers (w : list (string * PyVal)) :
  identifiers (join " AND " (where_parts w)) = map fst w.
Proof.
  unfold identifiers, where_parts. rewrite join_omap by done.
  induction w as [|x w IH]; [done|].
  cbn [map concat]. rewrite IH, format_condition. reflexivity.
Qed.

Lemma where_parts_keys (w : list (string * PyVal)) :
  map (fun k => format "{} = %s" [Identifier k] []) (map fst w) = where_parts w.
Proof. unfold where_parts. by rewrite map_map. Qed.

(** The list of [%s] of an insert. *)
Lemma placeholders_safe (raw : option string) (n : nat) :
  Forall (safe_atom raw) (atoms (join ", " (placeholders n))).
Proof.
  apply join_Forall; [by apply safe_literal|].
  unfold placeholders. induction n as [|n IH]; [constructor|].
  constructor; [by repeat constructor | exact IH].
Qed.

Lemma placeholders_identifiers (n : nat) :
  identifiers (join ", " (placeholders n)) = [].
Proof.
  unfold identifiers. rewrite join_omap by done.
  induction n as [|n IH]; [done|]. exact IH.
Qed.

Lemma identifiers_add (a b : Composable) :
  identifiers (add a b) = identifiers a ++ identifiers b.
Proof. unfold identifiers. by rewrite atoms_add, omap_app. Qed.

Lemma safe_add (raw : option string) (a b : Composable) :
  Forall (safe_atom raw) (atoms a) -> Forall (safe_atom raw) (atoms b) ->
  Forall (safe_atom raw) (atoms (add a b)).
Proof. intros Ha Hb. rewrite atoms_add. apply Forall_app. done. Qed.

Lemma safe_SQL_literal (raw : option string) (t : string) :
  existsb (String.eqb t) literals = true -> Forall (safe_atom raw) (atoms (SQL t)).
Proof. intros H. constructor; [by apply safe_literal | constructor]. Qed.

Lemma safe_SQL_raw (t : string) : Forall (safe_atom (Some t)) (atoms (SQL t)).
Proof. constructor; [by right | constructor]. Qed.

Lemma truthy_seq_false {A : Type} (o : option (list A)) :
  truthy_seq o = false -> some_list o = [].
Proof. unfold truthy_seq. by destruct (some_list o). Qed.

Lemma truthy_str_true (o : option string) :
  truthy_str o = true -> o = Some (default "" o).
Proof. by destruct o. Qed.

Lemma safe_Composed (raw : option string) (parts : list Composable) :
  Forall (fun x => Forall (safe_atom raw) (atoms x)) parts ->
  Forall (safe_atom raw) (atoms (Composed parts)).
Proof.
  intros H. rewrite atoms_Composed.
  induction H as [|x parts Hx H IH]; [constructor|].
  cbn [map concat]. apply Forall_app. done.
Qed.

Lemma identifiers_Composed (parts : list Composable) :
  identifiers (Composed parts) = concat (map identifiers parts).
Proof.
  unfold identifiers. rewrite atoms_Composed.
  induction parts as [|x parts IH]; [done|].
  cbn [map concat]. by rewrite omap_app, IH.
Qed.

Lemma safe_Identifier (raw : option string) (name : string) :
  Forall (safe_atom raw) (atoms (Identifier name)).
Proof. by repeat constructor. Qed.

(** Discharges the safety of the leaves of a query built from the pieces
    above. *)
Ltac safe_leaves :=
  repeat first
    [ apply safe_add
    | apply names_safe
    | apply conditions_safe
    | apply placeholders_safe
    | apply safe_Identifier
    | apply safe_SQL_raw
    | apply safe_SQL_literal; reflexivity
    | apply safe_Composed
    | apply List.Forall_cons
    | apply List.Forall_nil ].

Ltac list_identifiers :=
  repeat (progress (rewrite ?identifiers_add, ?identifiers_Composed,
                      ?names_identifiers, ?conditions_identifiers,
                      ?placeholders_identifiers;
                    cbn [map concat identifiers atoms omap list_omap app]));
  rewrite <- ?app_assoc, ?app_nil_r;
  cbn [app].

(** *** The three builders *)

Lemma select_composition (table : string) (columns : option (list string))
    (where_ : option (list (string * PyVal))) (where_sql : option string)
    (where_params : option (list PyVal)) (order_by : option (list string))
    (limit : option Z) :
  exists c : Call,
    select_from_table table columns where_ where_sql where_params order_by limit
      = Execute c /\
    Forall (safe_atom (spliced where_ where_sql)) (atoms (query c)) /\
    identifiers (query c) =
      some_list columns ++ [table] ++ map fst (some_list where_) ++ some_list order_by /\
    params c =
      or_none (map snd (some_list where_) ++
               raw_params where_ where_sql where_params ++ limit_param limit) /\
    fetch c = Some "all".
Proof.
  unfold select_from_table, spliced, raw_params. rewrite format_select.
  destruct (truthy_seq columns) eqn:Hc, (truthy_seq where_) eqn:Hw,
    (truthy_str where_sql) eqn:Hs, (truthy_seq order_by) eqn:Ho,
    (truthy_seq where_params) eqn:Hp, limit as [n|];
    eexists; (split; [reflexivity|]); cbn [query params fetch];
    try (apply truthy_seq_false in Hc; rewrite Hc);
    try (apply truthy_seq_false in Hw; rewrite Hw);
    try (apply truthy_seq_false in Ho; rewrite Ho);
    try (apply truthy_seq_false in Hp; rewrite Hp);
    try (apply truthy_str_true in Hs; rewrite Hs at 2).
  all: split; [safe_leaves|].
  all: try (split; [list_identifiers; rewrite ?app_nil_r; reflexivity|]).
  all: try (split; [|reflexivity]; cbn [app limit_param]; rewrite ?app_nil_r; reflexivity).
  all: right; exact Hs.
Qed.

Lemma insert_composition (table : string) (data : list (string * PyVal))
    (return_columns : option (list string)) :
  data <> [] ->
  exists c : Call,
    insert_into_table table data return_columns = Execute c /\
    Forall (safe_atom None) (atoms (query c)) /\
    identifiers (query c) = [table] ++ map fst data ++ some_list return_columns /\
    params c = Some (map snd data).
Proof.
  intros Hd. destruct data as [|kv data]; [done|].
  cbv beta iota zeta delta [insert_into_table].
  generalize (kv :: data) as rows. intros rows.
  rewrite format_insert.
  destruct (truthy_seq return_columns) eqn:Hr;
    eexists; (split; [reflexivity|]); cbn [query params];
    try (apply truthy_seq_false in Hr; rewrite Hr).
  all: split; [safe_leaves|].
  all: split; [list_identifiers; rewrite ?app_nil_r; reflexivity | reflexivity].
Qed.

Lemma delete_composition (table : string)
    (where_ : option (list (string * PyVal))) (where_sql : option string)
    (where_params : option (list PyVal)) (limit : option Z) :
  truthy_seq where_ = true \/ truthy_str where_sql = true ->
  exists c : Call,
    delete_from_table table where_ where_sql where_params limit = Execute c /\
    Forall (safe_atom (spliced where_ where_sql)) (atoms (query c)) /\
    identifiers (query c) =
      (match limit with Some _ => [table; table] | None => [table] end) ++
      map fst (some_list where_) /\
    params c =
      or_none (map snd (some_list where_) ++
               raw_params where_ where_sql where_params ++ limit_param limit) /\
    fetch c = None.
Proof.
  intros Hcond. unfold delete_from_table, spliced, raw_params.
  rewrite format_delete, format_delete_limited, where_parts_keys.
  destruct (truthy_seq where_) eqn:Hw, (truthy_str where_sql) eqn:Hs,
    (truthy_seq where_params) eqn:Hp, limit as [n|];
    try (by destruct Hcond);
    cbn [negb andb]; eexists; (split; [reflexivity|]); cbn [query params fetch];
    try (apply truthy_seq_false in Hw; rewrite Hw);
    try (apply truthy_seq_false in Hp; rewrite Hp);
    try (apply truthy_str_true in Hs).
  all: split; [safe_leaves|].
  all: try (split; [list_identifiers; rewrite ?app_nil_r; reflexivity|]).
  all: try (split; [|reflexivity]; cbn [app limit_param]; rewrite ?app_nil_r; reflexivity).
  all: right; exact Hs.
Qed.

(** The composed query does not depend on the values: two calls that name
    the same table, columns and keys, give the same raw condition and both
    give or both omit a limit, compose the same query. *)
Lemma select_query_ignores_values (table : string) (columns : option (list string))
    (w1 w2 : option (list (string * PyVal))) (where_sql : option string)
    (p1 p2 : option (list PyVal)) (order_by : option (list string))
    (l1 l2 : option Z) :
  keys_of w1 = keys_of w2 -> (l1 = None <-> l2 = None) ->
  query_of (select_from_table table columns w1 where_sql p1 order_by l1) =
  query_of (select_from_table table columns w2 where_sql p2 order_by l2).
Proof.
  intros Hk Hl.
  assert (where_parts (some_list w1) = where_parts (some_list w2)) as Hparts.
  { rewrite <- !where_parts_keys. f_equal.
    destruct w1, w2; cbn in *; congruence. }
  assert (truthy_seq w1 = truthy_seq w2) as Htr.
  { destruct w1 as [[|? ?]|], w2 as [[|? ?]|]; cbn in *; congruence. }
  unfold select_from_table. rewrite Hparts, Htr.
  destruct l1, l2.
  - destruct (truthy_seq w2), (truthy_str where_sql), (truthy_seq order_by); done.
  - discriminate (proj2 Hl eq_refl).
  - discriminate (proj1 Hl eq_refl).
  - destruct (truthy_seq w2), (truthy_str where_sql), (truthy_seq order_by); done.
Qed.

Lemma insert_query_ignores_values (table : string)
    (d1 d2 : list (string * PyVal)) (return_columns : option (list string)) :
  map fst d1 = map fst d2 ->
  query_of (insert_into_table table d1 return_columns) =
  query_of (insert_into_table table d2 return_columns).
Proof.
  intros H. destruct d1 as [|a d1], d2 as [|b d2]; try done.
  unfold insert_into_table. cbv beta iota zeta. rewrite H.
  by destruct (truthy_seq return_columns).
Qed.

Lemma delete_query_ignores_values (table : string)
    (w1 w2 : option (list (string * PyVal))) (where_sql : option string)
    (p1 p2 : option (list PyVal)) (l1 l2 : option Z) :
  keys_of w1 = keys_of w2 -> (l1 = None <-> l2 = None) ->
  query_of (delete_from_table table w1 where_sql p1 l1) =
  query_of (delete_from_table table w2 where_sql p2 l2).
Proof.
  intros Hk Hl.
  assert (map fst (some_list w1) = map fst (some_list w2)) as Hkeys.
  { destruct w1, w2; cbn in *; congruence. }
  assert (where_parts (some_list w1) = where_parts (some_list w2)) as Hparts.
  { rewrite <- !where_parts_keys. by f_equal. }
  assert (truthy_seq w1 = truthy_seq w2) as Htr.
  { destruct w1 as [[|? ?]|], w2 as [[|? ?]|]; cbn in *; congruence. }
  unfold delete_from_table. rewrite Hparts, Htr, Hkeys.
  destruct l1, l2.
  - destruct (truthy_seq w2), (truthy_str where_sql); done.
  - discriminate (proj2 Hl eq_refl).
  - discriminate (proj1 Hl eq_refl).
  - destruct (truthy_seq w2), (truthy_str where_sql); done.
Qed.

(** C9, as stated, fails. [select_from_table] and [delete_from_table] take
    a raw condition [where_sql] and splice it into the query as SQL text.
    Called on table users with no mapping and the condition below, the
    select builder executes a query whose text ends with the caller's string,
    which is none of the texts written in the source. *)
Lemma where_sql_becomes_sql_text :
  select_from_table "users" None None (Some "1=1; DROP TABLE users; --")
                    None None None =
    Execute (mkCall
      (Composed [SQL "SELECT "; SQL "*"; SQL " FROM "; Identifier "users";
                 SQL " WHERE "; SQL "1=1; DROP TABLE users; --"])
      None (Some "all")) /\
  ~ In "1=1; DROP TABLE users; --" literals /\
  option_map as_string
    (query_of (select_from_table "users" None None
                 (Some "1=1; DROP TABLE users; --") None None None)) =
    Some ("SELECT * FROM " +:+ quote_ident "users" +:+
          " WHERE 1=1; DROP TABLE users; --") /\
  delete_from_table "users" None (Some "1=1; DROP TABLE users; --") None None =
    Execute (mkCall
      (Composed [SQL "DELETE FROM "; Identifier "users";
                 SQL " WHERE "; SQL "1=1; DROP TABLE users; --"])
      None None).
Proof.
  split; [reflexivity|]. split; [|split; reflexivity].
  intros H. cbn in H.
  repeat (destruct H as [H|H]; [discriminate|]). exact H.
Qed.

(** C9, as the code has it. In the three builders every table, column and
    key name of the caller enters the query as a quoted identifier and every
    value as a bound parameter, in the order of the mapping, and the query
    composed by each of the three builders is the same whatever the values
    are: it depends on the names, on the raw condition and on whether a
    limit is given only. Every piece of raw SQL text
    in the query is written in the source, with one exception: the raw
    condition [where_sql] of select and delete, spliced as given when the
    mapping is empty or absent and [where_sql] is not empty. *)
Theorem builders_quote_names_and_bind_values :
  (forall (table : string) (columns : option (list string))
          (where_ : option (list (string * PyVal))) (where_sql : option string)
          (where_params : option (list PyVal)) (order_by : option (list string))
          (limit : option Z),
      exists c : Call,
        select_from_table table columns where_ where_sql where_params order_by limit
          = Execute c /\
        Forall (safe_atom (spliced where_ where_sql)) (atoms (query c)) /\
        identifiers (query c) =
          some_list columns ++ [table] ++ map fst (some_list where_) ++
          some_list order_by /\
        params c =
          or_none (map snd (some_list where_) ++
                   raw_params where_ where_sql where_params ++ limit_param limit) /\
        fetch c = Some "all") /\
  (forall (table : string) (data : list (string * PyVal))
          (return_columns : option (list string)),
      data <> [] ->
      exists c : Call,
        insert_into_table table data return_columns = Execute c /\
        Forall (safe_atom None) (atoms (query c)) /\
        identifiers (query c) = [table] ++ map fst data ++ some_list return_columns /\
        params c = Some (map snd data)) /\
  (forall (table : string) (where_ : option (list (string * PyVal)))
          (where_sql : option string) (where_params : option (list PyVal))
          (limit : option Z),
      truthy_seq where_ = true \/ truthy_str where_sql = true ->
      exists c : Call,
        delete_from_table table where_ where_sql where_params limit = Execute c /\
        Forall (safe_atom (spliced where_ where_sql)) (atoms (query c)) /\
        identifiers (query c) =
          (match limit with Some _ => [table; table] | None => [table] end) ++
          map fst (some_list where_) /\
        params c =
          or_none (map snd (some_list where_) ++
                   raw_params where_ where_sql where_params ++ limit_param limit) /\
        fetch c = None) /\
  (forall (table : string) (columns : option (list string))
          (w1 w2 : option (list (string * PyVal))) (where_sql : option string)
          (p1 p2 : option (list PyVal)) (order_by : option (list string))
          (l1 l2 : option Z),
      keys_of w1 = keys_of w2 -> (l1 = None <-> l2 = None) ->
      query_of (select_from_table table columns w1 where_sql p1 order_by l1) =
      query_of (select_from_table table columns w2 where_sql p2 order_by l2)) /\
  (forall (table : string) (d1 d2 : list (string * PyVal))
          (return_columns : option (list string)),
      map fst d1 = map fst d2 ->
      query_of (insert_into_table table d1 return_columns) =
      query_of (insert_into_table table d2 return_columns)) /\
  (forall (table : string) (w1 w2 : option (list (string * PyVal)))
          (where_sql : option string) (p1 p2 : option (list PyVal))
          (l1 l2 : option Z),
      keys_of w1 = keys_of w2 -> (l1 = None <-> l2 = None) ->
      query_of (delete_from_table table w1 where_sql p1 l1) =
      query_of (delete_from_table table w2 where_sql p2 l2)).
Proof.
  split; [exact select_composition|].
  split; [exact insert_composition|].
  split; [exact delete_composition|].
  split; [exact select_query_ignores_values|].
  split; [exact insert_query_ignores_values | exact delete_query_ignores_values].
Qed.

(** The calls of the example at the end of dbProvider.py. *)
Lemma builders_quote_names_and_bind_values_witness :
  (exists c : Call,
      insert_into_table "users"
        [("email", VStr "new@example.com"); ("active", VBool true)] (Some ["id"])
        = Execute c /\
      Forall (safe_atom None) (atoms (query c)) /\
      identifiers (query c) = ["users"; "email"; "active"; "id"] /\
      params c = Some [VStr "new@example.com"; VBool true]) /\
  (exists c : Call,
      delete_from_table "users" (Some [("email", VStr "new@example.com")])
        None None None = Execute c /\
      Forall (safe_atom None) (atoms (query c)) /\
      identifiers (query c) = ["users"; "email"] /\
      params c = Some [VStr "new@example.com"] /\
      fetch c = None) /\
  query_of (select_from_table "users" (Some ["id"; "email"])
              (Some [("active", VBool true)]) None None None (Some 10%Z)) =
  query_of (select_from_table "users" (Some ["id"; "email"])
              (Some [("active", VStr "x' OR '1'='1")]) None None None (Some 99%Z)) /\
  query_of (insert_into_table "users"
              [("email", VStr "new@example.com"); ("active", VBool true)]
              (Some ["id"])) =
  query_of (insert_into_table "users"
              [("email", VStr "x'); DROP TABLE users; --"); ("active", VNone)]
              (Some ["id"])) /\
  query_of (delete_from_table "users" (Some [("email", VStr "new@example.com")])
              None None (Some 1%Z)) =
  query_of (delete_from_table "users" (Some [("email", VStr "' OR '1'='1")])
              None (Some [VInt 3]) (Some 7%Z)).
Proof.
  split; [|split; [|split; [|split]]].
  - apply (proj1 (proj2 builders_quote_names_and_bind_values) "users"
             [("email", VStr "new@example.com"); ("active", VBool true)]
             (Some ["id"])).
    discriminate.
  - apply (proj1 (proj2 (proj2 builders_quote_names_and_bind_values)) "users"
             (Some [("email", VStr "new@example.com")]) None None None).
    left. reflexivity.
  - apply (proj1 (proj2 (proj2 (proj2 builders_quote_names_and_bind_values)))
             "users"
             (Some ["id"; "email"]) (Some [("active", VBool true)])
             (Some [("active", VStr "x' OR '1'='1")]) None None None None
             (Some 10%Z) (Some 99%Z)).
    + reflexivity.
    + split; discriminate.
  - apply (proj1 (proj2 (proj2 (proj2 (proj2 builders_quote_names_and_bind_values))))
             "users"
             [("email", VStr "new@example.com"); ("active", VBool true)]
             [("email", VStr "x'); DROP TABLE users; --"); ("active", VNone)]
             (Some ["id"])).
    reflexivity.
  - apply (proj2 (proj2 (proj2 (proj2 (proj2 builders_quote_names_and_bind_values))))
             "users"
             (Some [("email", VStr "new@example.com")])
             (Some [("email", VStr "' OR '1'='1")])
             None None (Some [VInt 3]) (Some 1%Z) (Some 7%Z)).
    + reflexivity.
    + split; discriminate.
Defined.

(** *** DELETE without a condition *)

(** C10. Called with neither a non-empty mapping nor a non-empty raw
    condition, [delete_from_table] raises [ValueError] and makes no call to
    [_execute]. Whenever it does execute, the caller gave one of the two and
    the query carries a WHERE clause. *)
Theorem delete_without_condition_raises :
  forall (table : string) (where_ : option (list (string * PyVal)))
         (where_sql : option string) (where_params : option (list PyVal))
         (limit : option Z),
    (truthy_seq where_ = false -> truthy_str where_sql = false ->
       delete_from_table table where_ where_sql where_params limit =
         ValueError "DELETE requires a where clause (where dict or where_sql)." /\
       call_of (delete_from_table table where_ where_sql where_params limit) = None) /\
    (forall c : Call,
       delete_from_table table where_ where_sql where_params limit = Execute c ->
       (truthy_seq where_ = true \/ truthy_str where_sql = true) /\
       In (ASql " WHERE ") (atoms (query c))).
Proof.
  intros table where_ where_sql where_params limit. split.
  - intros Hw Hs. unfold delete_from_table. rewrite Hw, Hs. done.
  - intros c H. unfold delete_from_table in H.
    rewrite format_delete, format_delete_limited in H.
    destruct (truthy_seq where_) eqn:Hw, (truthy_str where_sql) eqn:Hs;
      cbn [negb andb] in H; try discriminate.
    all: (split; [by (left + right)|]).
    all: destruct limit; injection H as <-; cbn [query];
      repeat (progress (rewrite ?atoms_add, ?atoms_Composed;
                        cbn [map concat atoms app]));
      rewrite ?in_app_iff; cbn; auto 10.
Qed.

(** No mapping and no raw condition, an empty mapping with an empty raw
    condition, and the delete of the example at the end of dbProvider.py. *)
Lemma delete_without_condition_raises_witness :
  delete_from_table "users" None None None None =
    ValueError "DELETE requires a where clause (where dict or where_sql)." /\
  delete_from_table "users" (Some []) (Some "") (Some [VInt 1]) (Some 5%Z) =
    ValueError "DELETE requires a where clause (where dict or where_sql)." /\
  In (ASql " WHERE ")
     (atoms (Composed [SQL "DELETE FROM "; Identifier "users"; SQL " WHERE ";
                       Composed [Identifier "email"; SQL " = %s"]])).
Proof.
  split; [|split].
  - apply (proj1 (delete_without_condition_raises "users" None None None None));
      reflexivity.
  - apply (proj1 (delete_without_condition_raises
                    "users" (Some []) (Some "") (Some [VInt 1]) (Some 5%Z)));
      reflexivity.
  - apply (proj2 (delete_without_condition_raises "users"
                    (Some [("email", VStr "new@example.com")]) None None None)
             (mkCall (Composed [SQL "DELETE FROM "; Identifier "users"; SQL " WHERE ";
                                Composed [Identifier "email"; SQL " = %s"]])
                     (Some [VStr "new@example.com"]) None)).
    reflexivity.
Defined.

End DbProviderFacts.
